(** * ProTrack: appointment lifecycle, change log and bulk reconciliation

    A shallow embedding of the state-changing handlers of the ProTrack
    single-page application:

    - [App.tsx]: the bootstrap effect and its auto-miss pass, [addChangeLog],
      [handleSubjectChange], [handleBulkAdd], [updateStatus],
      [updateAppointment], [addAppointment];
    - [components/AppointmentCalendar.tsx]: [handleStatusUpdate],
      [saveReason], [handleCompletionSubmit], [handleRescheduleSubmit] and
      the constraints declared on the inputs of the two modal forms;
    - [components/SubjectManager.tsx]: [handleSubmit];
    - [components/ImportExport.tsx]: [parseDDMMYYYY], [handleParse],
      [handleCommit];
    - the views and the user handling: [filteredLogs] of
      [components/ChangeLog.tsx], [processedData] of the calendar, the
      figures of [components/Dashboard.tsx], the counters and the booking of
      the subject directory, the two lists of
      [components/Communications.tsx], and the users of [App.tsx],
      [components/Login.tsx] and [components/UserManagement.tsx].

    Conventions of the model.

    - An instant (a JavaScript [Date], or the ISO string that stores it) is
      the number of milliseconds since the epoch, a [Z].  Local time is
      taken to be UTC and a day has 86400000 ms, so [startOfDay] and
      [subDays] of date-fns are plain arithmetic.
    - The value of an [<input type="date">] is a day index (days since the
      epoch) and [None] when the field is empty; its text is recovered by
      [format_ymd].  The value of an [<input type="time">] is a number of
      minutes after midnight, [None] when empty.
    - An optional property is an [option]; [None] stands for [undefined]
      (an absent key).  Strings are sequences of characters with a code
      below 256, the Latin-1 range of the code units of a JavaScript
      string.
    - [crypto.randomUUID()] and [new Date()] are inputs of the handlers:
      [uuid] is the sequence of identifiers the handler draws and [now] the
      instant at which it runs.
    - React state setters are applied in the order in which the handler
      calls them, on the snapshot the handler was given. *)

From Stdlib Require Import ZArith Lia Ascii String Sorted.
From stdpp Require Import base decidable option list strings pretty gmap.

Local Open Scope string_scope.
Local Open Scope Z_scope.
Local Open Scope list_scope.

(** ** Instants and calendar days *)

Module Instant.

Definition msPerMinute : Z := 60000.
Definition msPerDay : Z := 86400000.

(** date-fns [startOfDay], [subDays], [isBefore], [isAfter]. *)
Definition startOfDay (t : Z) : Z := t - t mod msPerDay.
Definition subDays (t : Z) (n : Z) : Z := t - n * msPerDay.
Definition isBefore (a b : Z) : bool := bool_decide (a < b).
Definition isAfter (a b : Z) : bool := bool_decide (b < a).

(** The calendar day an instant falls on: what [format(t, 'yyyy-MM-dd')]
    denotes. *)
Definition toDay (t : Z) : Z := t / msPerDay.

(** [parseISO] of a 'yyyy-MM-dd' text: midnight of that day. *)
Definition parseISO (day : Z) : Z := day * msPerDay.

(** Minutes after midnight of an instant: what [format(t, 'HH:mm')]
    denotes. *)
Definition minuteOfDay (t : Z) : Z := (t mod msPerDay) / msPerMinute.

(** [new Date(`${date}T${time}`)] for a date and a time input value. *)
Definition dateTime (day minutes : Z) : Z := day * msPerDay + minutes * msPerMinute.

(** Proleptic Gregorian calendar, days since 1970-01-01. *)
Definition civil_from_days (z : Z) : Z * Z * Z :=
  let z := z + 719468 in
  let era := z / 146097 in
  let doe := z - era * 146097 in
  let yoe := (doe - doe / 1460 + doe / 36524 - doe / 146096) / 365 in
  let doy := doe - (365 * yoe + yoe / 4 - yoe / 100) in
  let mp := (5 * doy + 2) / 153 in
  let d := doy - (153 * mp + 2) / 5 + 1 in
  let m := if bool_decide (mp < 10) then mp + 3 else mp - 9 in
  let y := yoe + era * 400 in
  (if bool_decide (m <= 2) then y + 1 else y, m, d).

Definition days_from_civil (y m d : Z) : Z :=
  let y := if bool_decide (m <= 2) then y - 1 else y in
  let era := y / 400 in
  let yoe := y - era * 400 in
  let doy := (153 * (if bool_decide (2 < m) then m - 3 else m + 9) + 2) / 5 + d - 1 in
  let doe := yoe * 365 + yoe / 4 - yoe / 100 + doy in
  era * 146097 + doe - 719468.

(** The day number of [new Date(year, month, day)], [month] counted from 0;
    out-of-range months and days roll over as in ECMAScript's MakeDay. *)
Definition makeDay (year month day : Z) : Z :=
  days_from_civil (year + month / 12) (month mod 12 + 1) 1 + (day - 1).

Definition pad (width : nat) (n : Z) : string :=
  let s := pretty n in
  String.rev (String.rev s +:+ string_of_list_ascii
    (replicate (width - String.length s) "0"%char)).

(** [format(date, 'yyyy-MM-dd')] of a day index. *)
Definition format_ymd (day : Z) : string :=
  let '(y, m, d) := civil_from_days day in
  pad 4 y +:+ "-" +:+ pad 2 m +:+ "-" +:+ pad 2 d.

(** [Date.prototype.toLocaleDateString()]; the rendering depends on the
    locale of the browser, the en-US one (M/D/YYYY) is taken here. *)
Definition toLocaleDateString (t : Z) : string :=
  let '(y, m, d) := civil_from_days (toDay t) in
  pretty m +:+ "/" +:+ pretty d +:+ "/" +:+ pretty y.

End Instant.
Export Instant.

(** ** JavaScript strings *)

Module Js.

(** Truthiness of a string: only the empty string is falsy. *)
Definition truthy (s : string) : bool := negb (String.eqb s "").

(** [a || b] on strings. *)
Definition or_str (a b : string) : string := if truthy a then a else b.

(** [a || b] where either side may be [undefined]. *)
Definition or_opt (a b : option string) : option string :=
  match a with
  | Some s => if truthy s then Some s else b
  | None => b
  end.

(** White space removed by [String.prototype.trim] and skipped by
    [parseInt], among the characters with a code below 256: TAB, LF, VT,
    FF, CR, SPACE and NO-BREAK SPACE (U+00A0). *)
Definition isWhiteSpace (c : ascii) : bool :=
  let n := nat_of_ascii c in
  ((9 <=? n)%nat && (n <=? 13)%nat) || (n =? 32)%nat || (n =? 160)%nat.

Fixpoint trimStart (s : string) : string :=
  match s with
  | String c r => if isWhiteSpace c then trimStart r else s
  | EmptyString => EmptyString
  end.

Definition trimEnd (s : string) : string := String.rev (trimStart (String.rev s)).
Definition trim (s : string) : string := trimEnd (trimStart s).

(** [s.split(sep)] for a separator that matches single characters. *)
Fixpoint split_go (sep : ascii -> bool) (cur : string) (s : string) : list string :=
  match s with
  | EmptyString => [String.rev cur]
  | String c r =>
      if sep c then String.rev cur :: split_go sep "" r
      else split_go sep (String c cur) r
  end.

Definition split (sep : ascii -> bool) (s : string) : list string := split_go sep "" s.

End Js.
Export Js.

(** ** Data model ([types.ts]) *)

Inductive AppointmentStatus := SCHEDULED | COMPLETED | MISSED | CANCELLED.

(** The string value of each member of the enum. *)
Definition statusText (s : AppointmentStatus) : string :=
  match s with
  | SCHEDULED => "Scheduled"
  | COMPLETED => "Completed"
  | MISSED => "Missed"
  | CANCELLED => "Cancelled"
  end.

Record Subject := mkSubject {
  s_id : string;
  s_name : string;
  s_email : option string;
  s_phone : option string;
  s_altPhone : option string;
  s_insertionDate : option Z;
  s_notes : option string
}.

Record Appointment := mkAppointment {
  a_id : string;
  a_subjectId : string;
  a_date : Z;
  a_status : AppointmentStatus;
  a_followUpReason : option string;
  a_notes : option string
}.

Inductive ChangeType := CREATE | UPDATE | DELETE.

Record ChangeLogEntry := mkChangeLogEntry {
  l_id : string;
  l_timestamp : Z;
  l_subjectId : string;
  l_subjectName : string;
  l_changeType : ChangeType;
  l_details : string;
  l_comment : string
}.

#[global] Instance AppointmentStatus_eq_dec : EqDecision AppointmentStatus.
Proof. solve_decision. Defined.
#[global] Instance ChangeType_eq_dec : EqDecision ChangeType.
Proof. solve_decision. Defined.
#[global] Instance Subject_eq_dec : EqDecision Subject.
Proof. solve_decision. Defined.
#[global] Instance Appointment_eq_dec : EqDecision Appointment.
Proof. solve_decision. Defined.

(** The three collections held by [App] ([useState]). *)
Record AppState := mkAppState {
  subjects : list Subject;
  appointments : list Appointment;
  changeLogs : list ChangeLogEntry
}.

(** How a handler ends: normally, after an [alert], by an early [return]
    without a message, by an uncaught exception, or not started at all
    because the browser refused to submit the form. *)
Inductive Outcome :=
| Done
| Alert (msg : string)
| Ignored
| Thrown
| Blocked.

#[global] Instance Outcome_eq_dec : EqDecision Outcome.
Proof. solve_decision. Defined.

(** [xs.find(x => x.id === id)] on the two collections. *)
Definition findSubject (id : string) (l : list Subject) : option Subject :=
  snd <$> list_find (λ s, s_id s = id) l.

Definition findAppointment (id : string) (l : list Appointment) : option Appointment :=
  snd <$> list_find (λ a, a_id a = id) l.

(** [notes || ''] *)
Definition notesText (n : option string) : string := default "" n.

(** ** [App.tsx] *)

Module App.

(** The auto-miss pass of the bootstrap effect: the body of
    [loadedApps.map(...)]. *)
Definition autoMissOne (now : Z) (app : Appointment) : Appointment :=
  if bool_decide (a_date app < now) && bool_decide (a_status app = SCHEDULED)
  then {| a_id := a_id app;
          a_subjectId := a_subjectId app;
          a_date := a_date app;
          a_status := MISSED;
          a_followUpReason := Some "Auto-detected: Past date";
          a_notes := Some (notesText (a_notes app) +:+ " [System: Marked as Missed]") |}
  else app.

Definition autoMiss (now : Z) (loadedApps : list Appointment) : list Appointment :=
  autoMissOne now <$> loadedApps.

Definition addChangeLog (uuid : string) (now : Z) (type : ChangeType)
    (sub : Subject) (details comment : string) (st : AppState) : AppState :=
  let newEntry :=
    {| l_id := uuid;
       l_timestamp := now;
       l_subjectId := s_id sub;
       l_subjectName := s_name sub;
       l_changeType := type;
       l_details := details;
       l_comment := comment |} in
  {| subjects := subjects st;
     appointments := appointments st;
     changeLogs := changeLogs st ++ [newEntry] |}.

Definition setSubjects (f : list Subject → list Subject) (st : AppState) : AppState :=
  {| subjects := f (subjects st);
     appointments := appointments st;
     changeLogs := changeLogs st |}.

Definition setAppointments (f : list Appointment → list Appointment) (st : AppState) : AppState :=
  {| subjects := subjects st;
     appointments := f (appointments st);
     changeLogs := changeLogs st |}.

Definition handleSubjectChange (uuid : string) (now : Z) (type : ChangeType)
    (subjectData : Subject) (comment : string) (st : AppState) : Outcome * AppState :=
  match type with
  | CREATE =>
      match findSubject (s_id subjectData) (subjects st) with
      | Some _ => (Alert "Error: Subject ID already exists.", st)
      | None =>
          (Done,
           addChangeLog uuid now CREATE subjectData "Created new subject entry" comment
             (setSubjects (λ prev, prev ++ [subjectData]) st))
      end
  | UPDATE =>
      match findSubject (s_id subjectData) (subjects st) with
      | None => (Ignored, st)
      | Some _ =>
          (Done,
           addChangeLog uuid now UPDATE subjectData "Updated subject details" comment
             (setSubjects
                (λ prev, (λ s, if decide (s_id s = s_id subjectData) then subjectData else s) <$> prev)
                st))
      end
  | DELETE =>
      (Done,
       addChangeLog uuid now DELETE subjectData "Exited Subject from study" comment
         (setSubjects (λ prev, filter (λ s, s_id s ≠ s_id subjectData) prev) st))
  end.

(** The object spread [{ ...a, status, followUpReason: reason || a.followUpReason }]. *)
Definition withStatus (status : AppointmentStatus) (reason : option string)
    (a : Appointment) : Appointment :=
  {| a_id := a_id a;
     a_subjectId := a_subjectId a;
     a_date := a_date a;
     a_status := status;
     a_followUpReason := or_opt reason (a_followUpReason a);
     a_notes := a_notes a |}.

Definition updateStatus (uuid : string) (now : Z) (id : string)
    (status : AppointmentStatus) (reason : option string) (st : AppState) : AppState :=
  let oldApp := findAppointment id (appointments st) in
  let st1 :=
    setAppointments
      (λ prev, (λ a, if decide (a_id a = id) then withStatus status reason a else a) <$> prev)
      st in
  match oldApp with
  | Some old =>
      if decide (a_status old ≠ status) then
        match findSubject (a_subjectId old) (subjects st) with
        | Some sub =>
            addChangeLog uuid now UPDATE sub
              ("Status: " +:+ statusText (a_status old) +:+ " -> " +:+ statusText status)
              ("Manual change. " +:+ or_str (default "" reason) "")
              st1
        | None => st1
        end
      else st1
  | None => st1
  end.

Definition updateAppointment (updated : Appointment) (st : AppState) : AppState :=
  setAppointments
    (λ prev, (λ a, if decide (a_id a = a_id updated) then updated else a) <$> prev) st.

Definition addAppointment (appt : Appointment) (st : AppState) : AppState :=
  setAppointments (λ prev, prev ++ [appt]) st.

(** A row handed to [handleBulkAdd]. [b_insertionDate] and
    [b_appointmentDate] hold an ISO string or the empty string: [None] is
    the empty string. *)
Record BulkItem := mkBulkItem {
  b_subjectId : string;
  b_name : string;
  b_phone : string;
  b_insertionDate : option Z;
  b_appointmentDate : option Z;
  b_remark : string
}.

(** The three arrays filled by the [items.forEach] loop. *)
Record BulkAcc := mkBulkAcc {
  newApps : list Appointment;
  newSubs : list Subject;
  updatedSubs : list Subject
}.

Definition bulkNewSubject (now : Z) (item : BulkItem) : Subject :=
  {| s_id := b_subjectId item;
     s_name := or_str (b_name item) ("Subject " +:+ b_subjectId item);
     s_email := None;
     s_phone := Some (b_phone item);
     s_altPhone := None;
     s_insertionDate := Some (default now (b_insertionDate item));
     s_notes := Some "Auto-created via Bulk Multi-Column Entry" |}.

Definition bulkMerge (existing : Subject) (item : BulkItem) : Subject :=
  {| s_id := s_id existing;
     s_name := or_str (b_name item) (s_name existing);
     s_email := s_email existing;
     s_phone := or_opt (Some (b_phone item)) (s_phone existing);
     s_altPhone := s_altPhone existing;
     s_insertionDate :=
       match b_insertionDate item with
       | Some t => Some t
       | None => s_insertionDate existing
       end;
     s_notes := s_notes existing |}.

(** First half of the loop body: staging of the subject.
    [JSON.stringify(updated) !== JSON.stringify(existing)] compares the two
    records field by field: the spread keeps the key order of [existing],
    and a key whose value is [undefined] is not printed. *)
Definition bulkSubject (subjects : list Subject) (now : Z)
    (item : BulkItem) (acc : BulkAcc) : BulkAcc :=
  let existingSub := list_find (λ s, s_id s = b_subjectId item) subjects in
  let subInNew := list_find (λ s, s_id s = b_subjectId item) (newSubs acc) in
  match existingSub, subInNew with
  | None, None =>
      {| newApps := newApps acc;
         newSubs := newSubs acc ++ [bulkNewSubject now item];
         updatedSubs := updatedSubs acc |}
  | Some (_, existing), _ =>
      let updated := bulkMerge existing item in
      if decide (updated ≠ existing)
      then {| newApps := newApps acc;
              newSubs := newSubs acc;
              updatedSubs := updatedSubs acc ++ [updated] |}
      else acc
  | None, Some _ => acc
  end.

Definition bulkAppointment (uuid : string) (now : Z) (item : BulkItem)
    (apptDate : Z) : Appointment :=
  let isPast := bool_decide (apptDate < now) in
  {| a_id := uuid;
     a_subjectId := b_subjectId item;
     a_date := apptDate;
     a_status := if isPast then MISSED else SCHEDULED;
     a_followUpReason := if isPast then Some "Past date on bulk entry" else None;
     a_notes := Some (b_remark item) |}.

(** The loop body. [new Date('').toISOString()] throws a [RangeError]:
    [None] is that exception, raised before any setter has been called. *)
Definition bulkStep (subjects : list Subject) (now : Z) (uuid : nat → string)
    (acc : BulkAcc) (item : BulkItem) : option BulkAcc :=
  let acc1 := bulkSubject subjects now item acc in
  match b_appointmentDate item with
  | None => None
  | Some apptDate =>
      Some {| newApps := newApps acc1 ++
                [bulkAppointment (uuid (length (newApps acc1))) now item apptDate];
              newSubs := newSubs acc1;
              updatedSubs := updatedSubs acc1 |}
  end.

Fixpoint bulkLoop (subjects : list Subject) (now : Z) (uuid : nat → string)
    (acc : BulkAcc) (items : list BulkItem) : option BulkAcc :=
  match items with
  | [] => Some acc
  | item :: rest =>
      match bulkStep subjects now uuid acc item with
      | Some acc1 => bulkLoop subjects now uuid acc1 rest
      | None => None
      end
  end.

(** [updatedSubs.forEach(u => { idx = next.findIndex(...); if (idx !== -1) next[idx] = u })] *)
Definition applyUpdate (next : list Subject) (u : Subject) : list Subject :=
  match list_find (λ s, s_id s = s_id u) next with
  | Some (idx, _) => <[idx := u]> next
  | None => next
  end.

Definition batchSubject (id name : string) : Subject :=
  {| s_id := id; s_name := name; s_email := None; s_phone := None;
     s_altPhone := None; s_insertionDate := None; s_notes := None |}.

Definition handleBulkAdd (uuid : nat → string) (now : Z)
    (items : list BulkItem) (st : AppState) : Outcome * AppState :=
  match bulkLoop (subjects st) now uuid (mkBulkAcc [] [] []) items with
  | None => (Thrown, st)
  | Some acc =>
      let k := length (newApps acc) in
      let subjectsChanged :=
        bool_decide (0 < length (newSubs acc))%nat || bool_decide (0 < length (updatedSubs acc))%nat in
      let st1 :=
        if subjectsChanged then
          addChangeLog (uuid k) now UPDATE (batchSubject "BATCH" "Bulk Ops")
            ("Added " +:+ pretty (length (newSubs acc)) +:+ " new subjects and updated "
               +:+ pretty (length (updatedSubs acc)) +:+ ".")
            "Bulk Entry Operation"
            (setSubjects (λ prev, foldl applyUpdate (prev ++ newSubs acc) (updatedSubs acc)) st)
        else st in
      let k1 := if subjectsChanged then S k else k in
      let st2 :=
        if bool_decide (0 < length (newApps acc))%nat then
          addChangeLog (uuid k1) now CREATE (batchSubject "BATCH" "Bulk Appts")
            ("Bulk scheduled " +:+ pretty (length (newApps acc)) +:+ " appointments.")
            "Bulk Entry Operation"
            (setAppointments (λ prev, prev ++ newApps acc) st1)
        else st1 in
      (Done, st2)
  end.

End App.
Export App.

(** ** [components/AppointmentCalendar.tsx] *)

Module AppointmentCalendar.

Inductive PostVisitAction := NEXT_APPT | EXIT.

Inductive ExitReason := Exit_REMOVAL | Exit_EXPULSION | Exit_COMPLETED | Exit_OTHER.

#[global] Instance ExitReason_eq_dec : EqDecision ExitReason.
Proof. solve_decision. Defined.

(** The string value of each member of the union of literals. *)
Definition exitReasonText (r : ExitReason) : string :=
  match r with
  | Exit_REMOVAL => "REMOVAL"
  | Exit_EXPULSION => "EXPULSION"
  | Exit_COMPLETED => "COMPLETED"
  | Exit_OTHER => "OTHER"
  end.

(** [exitReason === 'OTHER' ? `OTHER: ${exitOtherReason}` : exitReason] *)
Definition finalExitReason (r : ExitReason) (other : string) : string :=
  if decide (r = Exit_OTHER) then "OTHER: " +:+ other else exitReasonText r.

(** [`Exit Study: ${finalReason} on ${exitDate}${approx ? ' (approx)' : ''}`] *)
Definition exitNote (r : ExitReason) (other exitDate : string) (approx : bool) : string :=
  "Exit Study: " +:+ finalExitReason r other +:+ " on " +:+ exitDate
    +:+ (if approx then " (approx)" else "").

(** What [handleStatusUpdate] does: nothing ([if (!app) return]), an
    [alert], opening the inline reason editor ([setEditingId],
    [setReasonBuffer]), opening the completion modal
    ([initCompletionFlow]), or calling [onUpdateStatus]. *)
Inductive StatusUpdate :=
| NoSuchAppointment
| Refused (msg : string)
| EditReason (editingId : string) (reasonBuffer : string)
| CompletionFlow (app : Appointment)
| Applied (st : AppState).

Definition handleStatusUpdate (uuid : string) (now : Z) (id : string)
    (newStatus : AppointmentStatus) (st : AppState) : StatusUpdate :=
  match findAppointment id (appointments st) with
  | None => NoSuchAppointment
  | Some app =>
      match newStatus with
      | MISSED =>
          if isAfter (a_date app) now
          then Refused "You cannot record a 'Missed' status for a future appointment. This status is only for dates that have passed."
          else EditReason id (or_str (default "" (a_followUpReason app)) "")
      | COMPLETED => CompletionFlow app
      | _ => Applied (updateStatus uuid now id newStatus None st)
      end
  end.

Definition saveReason (uuid : string) (now : Z) (id : string)
    (reasonBuffer : string) (st : AppState) : AppState :=
  updateStatus uuid now id MISSED (Some reasonBuffer) st.

(** Marking an appointment as missed from the timeline: the click on the
    Missed button, then, when the reason editor has opened, the text typed
    in it and the click on Save. *)
Definition recordMissed (uuid : string) (now : Z) (id : string)
    (reason : string) (st : AppState) : Outcome * AppState :=
  match handleStatusUpdate uuid now id MISSED st with
  | EditReason editingId _ => (Done, saveReason uuid now editingId reason st)
  | Refused msg => (Alert msg, st)
  | NoSuchAppointment => (Ignored, st)
  | CompletionFlow _ => (Ignored, st)
  | Applied st' => (Done, st')
  end.

(** The state read by [handleCompletionSubmit]. *)
Record CompletionForm := mkCompletionForm {
  completionApp : option Appointment;
  completionDate : option Z;
  isApproximate : bool;
  postVisitAction : option PostVisitAction;
  nextApptDate : option Z;
  nextApptTime : option Z;
  nextApptNotes : string;
  exitReason : ExitReason;
  exitOtherReason : string;
  exitDate : string
}.

Definition approxText (approx : bool) : string := if approx then " (approx)" else "".

(** The appointment passed to [onUpdateAppointment] on completion. *)
Definition completedAppointment (app : Appointment) (day : Z) (approx : bool) : Appointment :=
  {| a_id := a_id app;
     a_subjectId := a_subjectId app;
     a_date := dateTime day (minuteOfDay (a_date app));
     a_status := COMPLETED;
     a_followUpReason := None;
     a_notes := Some (notesText (a_notes app) +:+ " [Attended on " +:+ format_ymd day
                        +:+ approxText approx +:+ "]") |}.

(** [handleCompletionSubmit]. An empty [completionDate] makes
    [parseISO] return an invalid date, which [isBefore] never finds earlier
    than the limit, and makes [toISOString] throw while the argument of
    [onUpdateAppointment] is built; an empty [nextApptTime] makes it throw
    after [onUpdateAppointment] has been called. *)
Definition handleCompletionSubmit (uuid : string) (now : Z)
    (f : CompletionForm) (st : AppState) : Outcome * AppState :=
  match completionApp f with
  | None => (Ignored, st)
  | Some app =>
      let limitDate := startOfDay (subDays now 5) in
      let tooOld :=
        match completionDate f with
        | Some day => isBefore (parseISO day) limitDate
        | None => false
        end in
      if bool_decide (a_status app = MISSED) && tooOld then
        (Alert "Invalid Completion Date. You cannot record corrected visits more than 5 days in the past.", st)
      else
        match postVisitAction f with
        | None => (Alert "Please either schedule the next appointment or exit the study.", st)
        | Some action =>
            match completionDate f with
            | None => (Thrown, st)
            | Some day =>
                let st1 := updateAppointment (completedAppointment app day (isApproximate f)) st in
                match action with
                | NEXT_APPT =>
                    match nextApptDate f with
                    | None => (Alert "Please select a date for the next appointment.", st1)
                    | Some nextDay =>
                        match nextApptTime f with
                        | None => (Thrown, st1)
                        | Some minutes =>
                            (Done,
                             addAppointment
                               {| a_id := uuid;
                                  a_subjectId := a_subjectId app;
                                  a_date := dateTime nextDay minutes;
                                  a_status := SCHEDULED;
                                  a_followUpReason := None;
                                  a_notes := Some (nextApptNotes f) |}
                               st1)
                        end
                    end
                | EXIT =>
                    match findSubject (a_subjectId app) (subjects st) with
                    | Some sub =>
                        if bool_decide (exitReason f = Exit_OTHER)
                           && negb (truthy (trim (exitOtherReason f)))
                        then (Alert "Please specify the 'Other' reason.", st1)
                        else
                          handleSubjectChange uuid now DELETE sub
                            (exitNote (exitReason f) (exitOtherReason f) (exitDate f)
                               (isApproximate f))
                            st1
                    | None => (Done, st1)
                    end
                end
            end
        end
  end.

(** The constraints the completion modal declares on its inputs
    ([required], [min], [max]); the browser does not dispatch the submit
    event while one of them is violated.
    - Visit date: required, at most today, and for a [Missed] appointment at
      least the day five days ago.
    - Next visit date (shown for NEXT_APPT): required, at least today.
    - Other reason (shown for EXIT and OTHER) and exit date (shown for
      EXIT): required. *)
Definition completionFormValid (now : Z) (f : CompletionForm) : bool :=
  match completionApp f with
  | None => false
  | Some app =>
      match completionDate f with
      | None => false
      | Some day =>
          bool_decide (day ≤ toDay now)
          && (if decide (a_status app = MISSED)
              then bool_decide (toDay (subDays now 5) ≤ day) else true)
      end
      && match postVisitAction f with
         | Some NEXT_APPT =>
             match nextApptDate f with
             | None => false
             | Some nextDay => bool_decide (toDay now ≤ nextDay)
             end
         | Some EXIT =>
             (if decide (exitReason f = Exit_OTHER) then truthy (exitOtherReason f) else true)
             && truthy (exitDate f)
         | None => true
         end
  end.

(** Pressing the submit button of the completion modal. *)
Definition completeAppointment (uuid : string) (now : Z)
    (f : CompletionForm) (st : AppState) : Outcome * AppState :=
  if completionFormValid now f then handleCompletionSubmit uuid now f st
  else (Blocked, st).

(** The appointment passed to [onUpdateAppointment] on reschedule. *)
Definition rescheduledAppointment (app : Appointment) (newIso : Z) : Appointment :=
  {| a_id := a_id app;
     a_subjectId := a_subjectId app;
     a_date := newIso;
     a_status := SCHEDULED;
     a_followUpReason := a_followUpReason app;
     a_notes := Some (notesText (a_notes app) +:+ " [System: Rescheduled from "
                        +:+ toLocaleDateString (a_date app) +:+ "]") |}.

Definition handleRescheduleSubmit (now : Z) (rescheduleApp : option Appointment)
    (rescheduleDate rescheduleTime : option Z) (st : AppState) : Outcome * AppState :=
  match rescheduleApp, rescheduleDate, rescheduleTime with
  | Some app, Some day, Some minutes =>
      let newIso := dateTime day minutes in
      let isPast := isBefore newIso (startOfDay now) in
      if isPast then
        (Alert "Rescheduling must be to a future date. To record a past visit, please use the 'Correct to Attended' flow.", st)
      else (Done, updateAppointment (rescheduledAppointment app newIso) st)
  | _, _, _ => (Ignored, st)
  end.

End AppointmentCalendar.
Export AppointmentCalendar.

(** ** [components/SubjectManager.tsx] *)

Module SubjectManager.

Inductive ModalMode := Modal_CREATE | Modal_EDIT | Modal_DELETE.

(** [Partial<Subject>]: every key may be absent. *)
Record PartialSubject := mkPartialSubject {
  fd_id : option string;
  fd_name : option string;
  fd_email : option string;
  fd_phone : option string;
  fd_altPhone : option string;
  fd_insertionDate : option Z;
  fd_notes : option string
}.

(** [{ ...selectedSubject, ...formData }] *)
Definition spread (sel : Subject) (fd : PartialSubject) : Subject :=
  {| s_id := default (s_id sel) (fd_id fd);
     s_name := default (s_name sel) (fd_name fd);
     s_email := match fd_email fd with Some v => Some v | None => s_email sel end;
     s_phone := match fd_phone fd with Some v => Some v | None => s_phone sel end;
     s_altPhone := match fd_altPhone fd with Some v => Some v | None => s_altPhone sel end;
     s_insertionDate :=
       match fd_insertionDate fd with Some v => Some v | None => s_insertionDate sel end;
     s_notes := match fd_notes fd with Some v => Some v | None => s_notes sel end |}.

(** The state read by [handleSubmit]. *)
Record SubjectForm := mkSubjectForm {
  modalMode : option ModalMode;
  selectedSubject : option Subject;
  formData : PartialSubject;
  comment : string;
  sm_exitReason : ExitReason;
  sm_exitOtherReason : string;
  sm_exitDate : string;
  exitApproximate : bool
}.

Definition handleSubmit (uuid : string) (now : Z) (f : SubjectForm)
    (st : AppState) : Outcome * AppState :=
  match modalMode f, selectedSubject f with
  | Some Modal_CREATE, _ =>
      if negb (truthy (trim (comment f))) then (Alert "Please provide a comment.", st)
      else
        match fd_id (formData f), fd_name (formData f) with
        | Some id, Some name =>
            if truthy id && truthy name then
              handleSubjectChange uuid now CREATE
                {| s_id := id;
                   s_name := name;
                   s_email := None;
                   s_phone := fd_phone (formData f);
                   s_altPhone := fd_altPhone (formData f);
                   s_insertionDate := Some now;
                   s_notes := Some "Manually added" |}
                (comment f) st
            else (Done, st)
        | _, _ => (Done, st)
        end
  | Some Modal_EDIT, Some sel =>
      if negb (truthy (trim (comment f))) then (Alert "Please provide a comment.", st)
      else handleSubjectChange uuid now UPDATE (spread sel (formData f)) (comment f) st
  | Some Modal_DELETE, Some sel =>
      if bool_decide (sm_exitReason f = Exit_OTHER)
         && negb (truthy (trim (sm_exitOtherReason f)))
      then (Alert "Please specify the 'Other' reason.", st)
      else
        handleSubjectChange uuid now DELETE sel
          (exitNote (sm_exitReason f) (sm_exitOtherReason f) (sm_exitDate f)
             (exitApproximate f))
          st
  | _, _ => (Done, st)
  end.

(** The exit workflow of the directory: the Exit button of a row
    ([openDeleteModal]), the reason, date and flag entered in the modal,
    and its submission. *)
Definition exitSubject (uuid : string) (now : Z) (sub : Subject)
    (reason : ExitReason) (other exitDate : string) (approx : bool)
    (st : AppState) : Outcome * AppState :=
  handleSubmit uuid now
    {| modalMode := Some Modal_DELETE;
       selectedSubject := Some sub;
       formData := mkPartialSubject None None None None None None None;
       comment := "";
       sm_exitReason := reason;
       sm_exitOtherReason := other;
       sm_exitDate := exitDate;
       exitApproximate := approx |}
    st.

End SubjectManager.
Export SubjectManager.

(** ** [components/ImportExport.tsx] *)

Module ImportExport.

Record BulkEntryRow := mkBulkEntryRow {
  row : BulkItem;
  isValid : bool;
  error : string
}.

Fixpoint digits (acc : option Z) (s : string) : option Z :=
  match s with
  | String c r =>
      match Ascii.is_nat c with
      | Some d => digits (Some (10 * default 0 acc + Z.of_nat d)) r
      | None => acc
      end
  | EmptyString => acc
  end.

(** [parseInt(s, 10)]; [None] is [NaN]. *)
Definition parseInt (s : string) : option Z :=
  match trimStart s with
  | String "+" r => digits None r
  | String "-" r => Z.opp <$> digits None r
  | t => digits None t
  end.

Definition isDateSeparator (c : ascii) : bool :=
  bool_decide (c = "/"%char) || bool_decide (c = "-"%char).

(** The largest time value of a [Date]. *)
Definition maxTime : Z := 8640000000000000.

(** [new Date(year, month, day)] at local midnight, [None] when the time
    value is out of range (an invalid date); years 0 to 99 stand for 1900
    to 1999. *)
Definition newDate (year month day : Z) : option Z :=
  let y := if bool_decide (0 ≤ year) && bool_decide (year ≤ 99) then 1900 + year else year in
  let t := makeDay y month day * msPerDay in
  if bool_decide (- maxTime ≤ t) && bool_decide (t ≤ maxTime) then Some t else None.

(** Dedicated parser for DD/MM/YYYY format. *)
Definition parseDDMMYYYY (dateStr : string) : option Z :=
  if negb (truthy dateStr) then None
  else
    match split isDateSeparator (trim dateStr) with
    | [p0; p1; p2] =>
        match parseInt p0, parseInt p1, parseInt p2 with
        | Some day, Some m, Some year =>
            let month := m - 1 in
            let fullYear := if bool_decide (year < 100) then 2000 + year else year in
            match newDate fullYear month day with
            | Some t =>
                if decide (civil_from_days (toDay t) = (fullYear, month + 1, day))
                then Some t else None
            | None => None
            end
        | _, _, _ => None
        end
    | _ => None
    end.

(** [s.split(/\r?\n/)] *)
Definition dropCR (s : string) : string :=
  match String.rev s with
  | String c r => if bool_decide (c = "013"%char) then String.rev r else s
  | EmptyString => s
  end.

Fixpoint dropCRs (l : list string) : list string :=
  match l with
  | [] => []
  | [last] => [last]
  | x :: rest => dropCR x :: dropCRs rest
  end.

Definition splitLines (s : string) : list string :=
  dropCRs (split (λ c, bool_decide (c = "010"%char)) s).

(** [colData[i]?.trim() || ''] *)
Definition column (colData : list string) (i : nat) : string :=
  match colData !! i with
  | Some c => or_str (trim c) ""
  | None => ""
  end.

(** The body of [rows.map(...)] in [handleParse]. *)
Definition parseRow (line : string) : BulkEntryRow :=
  let colData := split (λ c, bool_decide (c = "009"%char)) line in
  let subjectId := column colData 0 in
  let name := column colData 1 in
  let phone := column colData 2 in
  let insertionDateRaw := column colData 3 in
  let apptDateRaw := column colData 4 in
  let remark := column colData 5 in
  let insDateObj := parseDDMMYYYY insertionDateRaw in
  let apptDateObj := parseDDMMYYYY apptDateRaw in
  let isValidApptDate := bool_decide (apptDateObj ≠ None) in
  {| row := {| b_subjectId := subjectId;
               b_name := name;
               b_phone := phone;
               b_insertionDate := insDateObj;
               b_appointmentDate := apptDateObj;
               b_remark := remark |};
     isValid := truthy subjectId && isValidApptDate;
     error := if negb (truthy subjectId) then "Missing Subject ID"
              else if negb isValidApptDate then "Invalid Appt Date (Use DD/MM/YYYY)"
              else "" |}.

(** [handleParse]: the new value of [previewData]. *)
Definition handleParse (pastedData : string) (previewData : list BulkEntryRow)
    : list BulkEntryRow :=
  if negb (truthy (trim pastedData)) then previewData
  else parseRow <$> splitLines (trim pastedData).

(** [handleCommit]; the message of the first branch is shown in the status
    banner of the page. *)
Definition handleCommit (uuid : nat → string) (now : Z)
    (previewData : list BulkEntryRow) (st : AppState) : Outcome * AppState :=
  let validRows := filter (λ d, isValid d = true) previewData in
  if bool_decide (length validRows = 0%nat) then
    (Alert "No valid rows found in preview.", st)
  else handleBulkAdd uuid now (row <$> validRows) st.

(** Pasting a text, previewing it and committing the preview. *)
Definition importBulk (uuid : nat → string) (now : Z) (pastedData : string)
    (st : AppState) : Outcome * AppState :=
  handleCommit uuid now (handleParse pastedData []) st.

End ImportExport.
Export ImportExport.

(** ** [Array.prototype.sort], [toLowerCase], [includes] *)

Module JsArray.

(** [xs.sort(cmp)].  ECMAScript makes the sort stable, so for a comparator
    that orders the elements consistently the result is fixed: the elements
    in the order of [cmp], ties in their original order.  It is computed
    here by insertion from the right. *)
Fixpoint insertSorted {A} (cmp : A → A → Z) (x : A) (l : list A) : list A :=
  match l with
  | [] => [x]
  | y :: r => if bool_decide (cmp x y ≤ 0) then x :: l else y :: insertSorted cmp x r
  end.

Definition sort {A} (cmp : A → A → Z) (l : list A) : list A :=
  foldr (insertSorted cmp) [] l.

Definition lowerChar (c : ascii) : ascii :=
  let n := nat_of_ascii c in
  if (65 <=? n)%nat && (n <=? 90)%nat then ascii_of_nat (n + 32) else c.

(** [s.toLowerCase()] on one-byte characters. *)
Fixpoint toLowerCase (s : string) : string :=
  match s with
  | EmptyString => EmptyString
  | String c r => String (lowerChar c) (toLowerCase r)
  end.

(** [s.includes(sub)] *)
Fixpoint includes (s sub : string) : bool :=
  String.prefix sub s
  || match s with
     | EmptyString => false
     | String _ r => includes r sub
     end.

End JsArray.

(** ** [App.tsx]: users *)

Module Users.

Inductive UserRole := ADMIN | USER.

Record User := mkUser {
  u_username : string;
  u_password : string;
  u_role : UserRole;
  u_name : string
}.

#[global] Instance UserRole_eq_dec : EqDecision UserRole.
Proof. solve_decision. Defined.
#[global] Instance User_eq_dec : EqDecision User.
Proof. solve_decision. Defined.

Definition DEFAULT_ADMIN : User :=
  {| u_username := "admin"; u_password := "password123";
     u_role := ADMIN; u_name := "Head Admin" |}.

(** The users part of the bootstrap effect; [savedUsers] is what
    [localStorage] holds under [pt_users], [None] when the key is absent. *)
Definition loadUsers (savedUsers : option (list User)) : list User :=
  let loadedUsers := default [DEFAULT_ADMIN] savedUsers in
  match list_find (λ u, u_username u = "admin") loadedUsers with
  | Some _ => loadedUsers
  | None => loadedUsers ++ [DEFAULT_ADMIN]
  end.

Definition handleAddUser (newUser : User) (users : list User) : list User :=
  users ++ [newUser].

Definition handleDeleteUser (username : string) (users : list User) : list User :=
  filter (λ u, u_username u ≠ username) users.

(** [Partial<User>] as the form of [UserManagement] holds it; the role is
    always set. *)
Record NewUser := mkNewUser {
  nu_username : option string;
  nu_password : option string;
  nu_name : option string;
  nu_role : UserRole
}.

(** [!x] for an optional string. *)
Definition missing (x : option string) : bool :=
  match x with
  | Some s => negb (truthy s)
  | None => true
  end.

(** [handleAdd] of [UserManagement]: the error shown, empty on success, and
    the users. *)
Definition handleAdd (newUser : NewUser) (users : list User) : string * list User :=
  if missing (nu_username newUser) || missing (nu_password newUser)
     || missing (nu_name newUser)
  then ("All fields are required.", users)
  else
    match list_find (λ u, Some (u_username u) = nu_username newUser) users with
    | Some _ => ("Username already exists.", users)
    | None =>
        ("",
         handleAddUser
           {| u_username := default "" (nu_username newUser);
              u_password := default "" (nu_password newUser);
              u_role := nu_role newUser;
              u_name := default "" (nu_name newUser) |}
           users)
    end.

(** The remove button of a row of the user table: it is rendered for a
    user that is neither the current one nor [admin]. *)
Definition removeUser (currentUser : option User) (u : User) (users : list User) : list User :=
  if bool_decide (Some (u_username u) ≠ (u_username <$> currentUser))
     && bool_decide (u_username u ≠ "admin")
  then handleDeleteUser (u_username u) users
  else users.

(** [handleLogin] of [Login], once the delay has elapsed: the user passed
    to [onLogin], or [None] for 'Invalid username or password.'. *)
Definition handleLogin (users : list User) (username password : string) : option User :=
  snd <$> list_find (λ u, u_username u = username ∧ u_password u = password) users.

End Users.
Export Users.

(** ** [components/ChangeLog.tsx] *)

Module ChangeLogView.

Inductive FilterType := Filter_ALL | Filter_DELETE.

(** Filter and sort logs by timestamp descending. *)
Definition filteredLogs (logs : list ChangeLogEntry) (filterType : FilterType)
    : list ChangeLogEntry :=
  let list :=
    match filterType with
    | Filter_DELETE => filter (λ l, l_changeType l = DELETE) logs
    | Filter_ALL => logs
    end in
  JsArray.sort (λ a b, l_timestamp b - l_timestamp a) list.

End ChangeLogView.
Export ChangeLogView.

(** ** [components/AppointmentCalendar.tsx]: the timeline *)

Module Timeline.

Inductive SortOrder := asc | desc.

(** [format(date, 'yyyy-MM')] *)
Definition monthKey (t : Z) : string :=
  let '(y, m, _) := civil_from_days (toDay t) in
  pad 4 y +:+ "-" +:+ pad 2 m.

(** [sub?.name.toLowerCase().includes(term) || sub?.id.toLowerCase().includes(term)]:
    [undefined], hence falsy, when the subject is not found. *)
Definition matchesSearch (subjects : list Subject) (searchTerm : string)
    (app : Appointment) : bool :=
  match findSubject (a_subjectId app) subjects with
  | Some sub =>
      JsArray.includes (JsArray.toLowerCase (s_name sub)) (JsArray.toLowerCase searchTerm)
      || JsArray.includes (JsArray.toLowerCase (s_id sub)) (JsArray.toLowerCase searchTerm)
  | None => false
  end.

(** [statusFilter] is [None] for 'ALL'; [monthFilter] is 'ALL' or a month
    key. *)
Definition matchesStatus (statusFilter : option AppointmentStatus) (app : Appointment) : bool :=
  match statusFilter with
  | None => true
  | Some s => bool_decide (a_status app = s)
  end.

Definition matchesMonth (monthFilter : string) (app : Appointment) : bool :=
  bool_decide (monthFilter = "ALL") || bool_decide (monthKey (a_date app) = monthFilter).

Definition dateOrder (sortOrder : SortOrder) (a b : Appointment) : Z :=
  match sortOrder with
  | asc => a_date a - a_date b
  | desc => a_date b - a_date a
  end.

Definition processedData (subjects : list Subject) (appointments : list Appointment)
    (searchTerm : string) (statusFilter : option AppointmentStatus)
    (monthFilter : string) (sortOrder : SortOrder) : list Appointment :=
  let filtered :=
    filter (λ app, matchesSearch subjects searchTerm app
                   && matchesStatus statusFilter app
                   && matchesMonth monthFilter app = true)
      appointments in
  JsArray.sort (dateOrder sortOrder) filtered.

(** [openRescheduleModal]: the appointment, the date and the time the
    modal opens with (the next day, 10:00). *)
Definition openRescheduleModal (now : Z) (app : Appointment)
    : option Appointment * option Z * option Z :=
  (Some app, Some (toDay (now + msPerDay)), Some 600).

(** [initCompletionFlow]: the values the completion modal opens with. *)
Definition initCompletionFlow (now : Z) (app : Appointment)
    (nextApptTime : option Z) (nextApptNotes : string) : CompletionForm :=
  {| completionApp := Some app;
     completionDate := Some (toDay now);
     isApproximate := false;
     postVisitAction := None;
     nextApptDate := None;
     nextApptTime := nextApptTime;
     nextApptNotes := nextApptNotes;
     exitReason := Exit_COMPLETED;
     exitOtherReason := "";
     exitDate := format_ymd (toDay now) |}.

End Timeline.
Export Timeline.

(** ** [components/Dashboard.tsx] *)

Module Dashboard.

(** [new Set(subjects.map(s => s.id))] *)
Definition activeSubjectIds (subjects : list Subject) : gset string :=
  list_to_set (s_id <$> subjects).

(** Appointments belonging to currently active subjects. *)
Definition filteredAppointments (subjects : list Subject)
    (appointments : list Appointment) : list Appointment :=
  filter (λ a, a_subjectId a ∈ activeSubjectIds subjects) appointments.

Definition totalSubjects (subjects : list Subject) : nat := length subjects.

Definition upcomingAppointments (now : Z) (subjects : list Subject)
    (appointments : list Appointment) : nat :=
  length (filter (λ a, now < a_date a ∧ a_status a = SCHEDULED)
            (filteredAppointments subjects appointments)).

Definition missedAppointments (subjects : list Subject)
    (appointments : list Appointment) : nat :=
  length (filter (λ a, a_status a = MISSED) (filteredAppointments subjects appointments)).

Definition completedAppointments (subjects : list Subject)
    (appointments : list Appointment) : nat :=
  length (filter (λ a, a_status a = COMPLETED) (filteredAppointments subjects appointments)).

End Dashboard.

(** ** [components/SubjectManager.tsx]: booking and counters *)

Module Directory.

Definition handleBookSubmit (uuid : string) (bookingSubject : option Subject)
    (bookDate bookTime : option Z) (bookNotes : string) (st : AppState)
    : Outcome * AppState :=
  match bookingSubject, bookDate, bookTime with
  | Some sub, Some day, Some minutes =>
      (Done,
       addAppointment
         {| a_id := uuid;
            a_subjectId := s_id sub;
            a_date := dateTime day minutes;
            a_status := SCHEDULED;
            a_followUpReason := None;
            a_notes := Some bookNotes |}
         st)
  | _, _, _ => (Ignored, st)
  end.

Record Stats := mkStats {
  stat_A : nat;
  stat_S : nat;
  stat_M : nat;
  stat_Total : nat
}.

(** The [stats] attached to a subject by [processedSubjects]. *)
Definition subjectStats (appointments : list Appointment) (sub : Subject) : Stats :=
  let subApps := filter (λ a, a_subjectId a = s_id sub) appointments in
  {| stat_A := length (filter (λ a, a_status a = COMPLETED) subApps);
     stat_S := length (filter (λ a, a_status a = SCHEDULED) subApps);
     stat_M := length (filter (λ a, a_status a = MISSED) subApps);
     stat_Total := length subApps |}.

End Directory.
Export Directory.

(** ** [components/Communications.tsx] *)

Module Communications.

(** Upcoming in next 7 days.  [diff] is a quotient of floating-point
    numbers in the source; [0 <= diff <= 7] holds exactly when the
    difference in milliseconds lies between 0 and seven days. *)
Definition upcoming (today : Z) (appointments : list Appointment) : list Appointment :=
  filter (λ a, 0 ≤ a_date a - today ∧ a_date a - today ≤ 7 * msPerDay
               ∧ a_status a = SCHEDULED) appointments.

(** Missed recently (last 30 days). *)
Definition missed (today : Z) (appointments : list Appointment) : list Appointment :=
  filter (λ a, 0 ≤ today - a_date a ∧ today - a_date a ≤ 30 * msPerDay
               ∧ a_status a = MISSED) appointments.

End Communications.

(** ** [App.tsx]: the bootstrap effect *)

Module Session.

(** [MOCK_SUBJECTS]; [loaded] is the instant at which the module was
    evaluated. *)
Definition MOCK_SUBJECTS (loaded : Z) : list Subject :=
  [ {| s_id := "A001"; s_name := "Alice Freeman (AIIMS)";
       s_email := Some "alice@aiims.edu"; s_phone := Some "9876543210";
       s_altPhone := None; s_insertionDate := Some loaded; s_notes := None |};
    {| s_id := "S002"; s_name := "Bob Smith (SJH)"; s_email := None;
       s_phone := Some "8765432109"; s_altPhone := None;
       s_insertionDate := Some loaded; s_notes := None |};
    {| s_id := "M003"; s_name := "Charlie Davis (Meerut)"; s_email := None;
       s_phone := Some "7654321098"; s_altPhone := None;
       s_insertionDate := Some loaded; s_notes := None |} ].

(** The subjects, the appointments and the log after the effect that runs
    when the application starts; [savedSubs], [savedApps] and [savedLogs]
    are what the local storage holds under pt_subjects, pt_appointments and
    pt_changelogs, [None] for a missing item.  The three pieces of state
    start empty. *)
Definition bootstrap (loaded now : Z) (savedSubs : option (list Subject))
    (savedApps : option (list Appointment)) (savedLogs : option (list ChangeLogEntry))
    : AppState :=
  {| subjects := match savedSubs with
                 | Some subs => subs
                 | None => MOCK_SUBJECTS loaded
                 end;
     appointments := autoMiss now (match savedApps with
                                   | Some loadedApps => loadedApps
                                   | None => []
                                   end);
     changeLogs := match savedLogs with
                   | Some logs => logs
                   | None => []
                   end |}.

End Session.
Export Session.

(** ** Specification predicates *)

(** [a] is the appointment that a bulk row [item] stands for at [now]. *)
Definition bulkAppointmentOf (now : Z) (item : BulkItem) (a : Appointment) : Prop :=
  ∃ date,
    b_appointmentDate item = Some date
    ∧ a_subjectId a = b_subjectId item
    ∧ a_date a = date
    ∧ a_status a = (if decide (date < now) then MISSED else SCHEDULED)
    ∧ a_followUpReason a
      = (if decide (date < now) then Some "Past date on bulk entry" else None)
    ∧ a_notes a = Some (b_remark item).

(** ** Sample data for the examples *)

Definition demo_subject : Subject :=
  {| s_id := "S002"; s_name := "Bob Smith (SJH)"; s_email := None;
     s_phone := Some "8765432109"; s_altPhone := None;
     s_insertionDate := Some 1761991200000; s_notes := None |}.

Definition demo_appointment (status : AppointmentStatus) (date : Z) : Appointment :=
  {| a_id := "a1"; a_subjectId := "S002"; a_date := date; a_status := status;
     a_followUpReason := None; a_notes := None |}.

Definition demo_state (status : AppointmentStatus) (date : Z) : AppState :=
  {| subjects := [demo_subject];
     appointments := [demo_appointment status date];
     changeLogs := [] |}.

(** The same appointment after its subject has left the directory. *)
Definition demo_state_exited (status : AppointmentStatus) (date : Z) : AppState :=
  {| subjects := [];
     appointments := [demo_appointment status date];
     changeLogs := [] |}.

(** The same appointment, booked with a note. *)
Definition demo_appointment_noted (status : AppointmentStatus) (date : Z) : Appointment :=
  {| a_id := "a1"; a_subjectId := "S002"; a_date := date; a_status := status;
     a_followUpReason := None; a_notes := Some "Bring reports" |}.

Definition demo_state_noted (status : AppointmentStatus) (date : Z) : AppState :=
  {| subjects := [demo_subject];
     appointments := [demo_appointment_noted status date];
     changeLogs := [] |}.

(** 3 November 2025, 10:00. *)
Definition demo_now : Z := 1762164000000.

(** The completion modal filled in for the appointment [app]: attended on
    [day], next visit the day after [demo_now] at 10:00. *)
Definition demo_next_visit (app : Appointment) (day : Z) : CompletionForm :=
  {| completionApp := Some app;
     completionDate := Some day;
     isApproximate := false;
     postVisitAction := Some NEXT_APPT;
     nextApptDate := Some (toDay demo_now + 1);
     nextApptTime := Some 600;
     nextApptNotes := "Monthly follow up";
     exitReason := Exit_COMPLETED;
     exitOtherReason := "";
     exitDate := "2025-11-03" |}.

(** The completion modal filled in for the appointment [app]: attended
    today, exit of the subject with the reason [OTHER] and the text
    [other]. *)
Definition demo_exit_other (app : Appointment) (other : string) : CompletionForm :=
  {| completionApp := Some app;
     completionDate := Some (toDay demo_now);
     isApproximate := false;
     postVisitAction := Some EXIT;
     nextApptDate := None;
     nextApptTime := Some 600;
     nextApptNotes := "";
     exitReason := Exit_OTHER;
     exitOtherReason := other;
     exitDate := "2025-11-03" |}.

Definition TAB : string := String "009"%char "".
Definition LF : string := String "010"%char "".
Definition NBSP : string := String "160"%char "".

(** Three rows pasted from a sheet; 31/02/2026 is not a date. *)
Definition demo_paste : string :=
  "A001" +:+ TAB +:+ "Alice Freeman" +:+ TAB +:+ "9876543210" +:+ TAB +:+ "15/05/2024"
    +:+ TAB +:+ "20/05/2026" +:+ TAB +:+ "Follow up" +:+ LF
  +:+ "M003" +:+ TAB +:+ "Charlie Davis" +:+ TAB +:+ "" +:+ TAB +:+ ""
    +:+ TAB +:+ "31/02/2026" +:+ TAB +:+ "" +:+ LF
  +:+ "S002" +:+ TAB +:+ "" +:+ TAB +:+ "" +:+ TAB +:+ ""
    +:+ TAB +:+ "01/10/2025" +:+ TAB +:+ "Late entry".

(** Two rows for the same new subject, with different names and phones. *)
Definition demo_row_first : BulkItem :=
  {| b_subjectId := "A010"; b_name := "Ann"; b_phone := "111";
     b_insertionDate := None; b_appointmentDate := Some (demo_now + msPerDay);
     b_remark := "first visit" |}.

Definition demo_row_second : BulkItem :=
  {| b_subjectId := "A010"; b_name := "Bea"; b_phone := "222";
     b_insertionDate := Some (demo_now - msPerDay);
     b_appointmentDate := Some (demo_now + 2 * msPerDay);
     b_remark := "second visit" |}.

(** A row for another new subject. *)
Definition demo_row_other : BulkItem :=
  {| b_subjectId := "A011"; b_name := "Cal"; b_phone := "333";
     b_insertionDate := None; b_appointmentDate := Some (demo_now + 3 * msPerDay);
     b_remark := "" |}.

(** The identifiers drawn by a handler: u0, u1, ... *)
Definition demo_uuid (n : nat) : string := "u" +:+ pretty n.

(** * Properties *)

(** ** The bootstrap auto-miss pass *)

Section AutoMiss.
Variable now : Z.

Lemma autoMissOne_stale app :
  a_status app = SCHEDULED ∧ a_date app < now →
  autoMissOne now app =
    {| a_id := a_id app;
       a_subjectId := a_subjectId app;
       a_date := a_date app;
       a_status := MISSED;
       a_followUpReason := Some "Auto-detected: Past date";
       a_notes := Some (notesText (a_notes app) +:+ " [System: Marked as Missed]") |}.
Proof.
  intros [Hs Hd]. unfold autoMissOne.
  rewrite !bool_decide_eq_true_2 by done. done.
Qed.

Lemma autoMissOne_fresh app :
  ¬ (a_status app = SCHEDULED ∧ a_date app < now) → autoMissOne now app = app.
Proof.
  intros Hn. unfold autoMissOne.
  destruct (bool_decide_reflect (a_date app < now)); simpl; [|done].
  destruct (bool_decide_reflect (a_status app = SCHEDULED)); simpl; [|done].
  destruct Hn. by split.
Qed.

Lemma autoMissOne_not_stale app :
  ¬ (a_status (autoMissOne now app) = SCHEDULED ∧ a_date (autoMissOne now app) < now).
Proof.
  destruct (decide (a_status app = SCHEDULED ∧ a_date app < now)) as [Hs|Hs].
  - rewrite autoMissOne_stale by done. intros [? _]. done.
  - by rewrite autoMissOne_fresh.
Qed.

(** Running the pass a second time with the same clock changes nothing. *)
Lemma autoMiss_idempotent l : autoMiss now (autoMiss now l) = autoMiss now l.
Proof.
  unfold autoMiss. rewrite <- list_fmap_compose. apply list_fmap_ext.
  intros i app _. simpl. apply autoMissOne_fresh, autoMissOne_not_stale.
Qed.
End AutoMiss.

(** C4. After the auto-miss pass at [now], no appointment is [Scheduled]
    with a date before [now]; position by position, an appointment that
    was [Scheduled] and past comes out [Missed], with the reason
    "Auto-detected: Past date" and the system note appended to the notes
    it had (to the empty text when it had none), and any other appointment
    comes out as it went in. *)
Theorem autoMiss_pass (now : Z) (loadedApps : list Appointment) :
  Forall (λ app, ¬ (a_status app = SCHEDULED ∧ a_date app < now)) (autoMiss now loadedApps)
  ∧ Forall2
      (λ app app',
         if decide (a_status app = SCHEDULED ∧ a_date app < now)
         then a_status app' = MISSED
              ∧ a_followUpReason app' = Some "Auto-detected: Past date"
              ∧ a_notes app'
                = Some (match a_notes app with
                        | Some stored => stored
                        | None => ""
                        end +:+ " [System: Marked as Missed]")
              ∧ a_id app' = a_id app
              ∧ a_subjectId app' = a_subjectId app
              ∧ a_date app' = a_date app
         else app' = app)
      loadedApps (autoMiss now loadedApps).
Proof.
  split.
  - unfold autoMiss. apply Forall_fmap, Forall_forall. intros app _.
    apply autoMissOne_not_stale.
  - unfold autoMiss. apply Forall2_fmap_r, Forall2_same_length_lookup.
    split; [done|]. intros i app app' H1 H2.
    assert (app' = app) as -> by congruence.
    case_decide as Hs; simpl.
    + rewrite (autoMissOne_stale now app Hs). simpl.
      split_and!; done.
    + by apply autoMissOne_fresh.
Qed.

(** Two appointments booked with the note "Bring reports": the one dated
    the day before comes out with the system note after its own, the one
    dated the day after keeps its note as it is. *)
Lemma autoMiss_pass_witness :
  let loadedApps := [ demo_appointment_noted SCHEDULED (demo_now - msPerDay);
                      demo_appointment_noted SCHEDULED (demo_now + msPerDay) ] in
  Forall (λ app, ¬ (a_status app = SCHEDULED ∧ a_date app < demo_now))
    (autoMiss demo_now loadedApps)
  ∧ a_status <$> autoMiss demo_now loadedApps = [MISSED; SCHEDULED]
  ∧ a_notes <$> autoMiss demo_now loadedApps
    = [Some "Bring reports [System: Marked as Missed]"; Some "Bring reports"].
Proof.
  intros loadedApps.
  destruct (autoMiss_pass demo_now loadedApps) as [Hnone Hpos].
  split; [exact Hnone|].
  apply Forall2_cons_inv_l in Hpos as (app1 & rest & H1 & Hpos & Heq).
  apply Forall2_cons_inv_l in Hpos as (app2 & rest' & H2 & Hpos & ->).
  apply Forall2_nil_inv_l in Hpos as ->.
  rewrite Heq. rewrite decide_True in H1 by (split; [done|vm_compute; done]).
  rewrite decide_False in H2 by (intros [_ H]; vm_compute in H; done).
  destruct H1 as (Hs & _ & Hn & _). subst app2. simpl.
  by rewrite Hs, Hn.
Defined.

(** The example of the specification: one [Scheduled] appointment of
    subject A001 dated the day before. *)
Example autoMiss_yesterday :
  autoMiss 1762164000000
    [ {| a_id := "a1"; a_subjectId := "A001"; a_date := 1762077600000;
         a_status := SCHEDULED; a_followUpReason := None; a_notes := None |} ]
  = [ {| a_id := "a1"; a_subjectId := "A001"; a_date := 1762077600000;
         a_status := MISSED; a_followUpReason := Some "Auto-detected: Past date";
         a_notes := Some " [System: Marked as Missed]" |} ].
Proof. reflexivity. Qed.

(** ** Lookups by identifier *)

Lemma findAppointment_Some id l app :
  findAppointment id l = Some app → app ∈ l ∧ a_id app = id.
Proof.
  unfold findAppointment. intros H.
  destruct (list_find _ l) as [[i x]|] eqn:E; simplify_eq/=.
  apply list_find_Some in E as (Hl & Hid & _).
  split; [by eapply list_elem_of_lookup_2|done].
Qed.

Lemma findSubject_Some id l sub :
  findSubject id l = Some sub → sub ∈ l ∧ s_id sub = id.
Proof.
  unfold findSubject. intros H.
  destruct (list_find _ l) as [[i x]|] eqn:E; simplify_eq/=.
  apply list_find_Some in E as (Hl & Hid & _).
  split; [by eapply list_elem_of_lookup_2|done].
Qed.

Lemma findSubject_None id l :
  findSubject id l = None ↔ Forall (λ s, s_id s ≠ id) l.
Proof.
  unfold findSubject. rewrite fmap_None. apply list_find_None.
Qed.

Lemma findSubject_filter_ne id l :
  findSubject id (filter (λ s, s_id s ≠ id) l) = None.
Proof.
  apply findSubject_None, Forall_forall. intros s Hs.
  by apply list_elem_of_filter in Hs as [? _].
Qed.

(** ** [updateStatus] *)

Lemma or_opt_blank (reason old : option string) :
  reason = None ∨ reason = Some "" → or_opt reason old = old.
Proof. by intros [-> | ->]. Qed.

Lemma truthy_true s : truthy s = true ↔ s ≠ "".
Proof.
  unfold truthy. rewrite negb_true_iff. split.
  - intros H ->. by rewrite String.eqb_refl in H.
  - intros H. by apply String.eqb_neq.
Qed.

Lemma truthy_false s : truthy s = false ↔ s = "".
Proof.
  unfold truthy. rewrite negb_false_iff. apply String.eqb_eq.
Qed.

Lemma or_opt_supplied (r : string) (old : option string) :
  r ≠ "" → or_opt (Some r) old = Some r.
Proof. intros H. simpl. by apply truthy_true in H as ->. Qed.

Lemma updateStatus_appointments uuid now id status reason st :
  appointments (updateStatus uuid now id status reason st)
  = (λ a, if decide (a_id a = id) then withStatus status reason a else a)
      <$> appointments st.
Proof.
  unfold updateStatus.
  destruct (findAppointment id (appointments st)) as [old|]; [|done].
  case_decide; [|done].
  by destruct (findSubject _ _).
Qed.

Lemma updateStatus_subjects uuid now id status reason st :
  subjects (updateStatus uuid now id status reason st) = subjects st.
Proof.
  unfold updateStatus.
  destruct (findAppointment id (appointments st)) as [old|]; [|done].
  case_decide; [|done].
  by destruct (findSubject _ _).
Qed.

(** C10. [updateStatus] leaves every appointment with another identifier
    as it is.  On the appointment identified, a reason that is omitted or
    empty leaves [followUpReason] as it was, and a non-empty reason
    replaces it. *)
Theorem updateStatus_followUpReason uuid now id status (reason : option string) st :
  Forall2
    (λ a a',
       if decide (a_id a = id) then
         a_followUpReason a' =
           match reason with
           | None => a_followUpReason a
           | Some r => if decide (r = "") then a_followUpReason a else Some r
           end
       else a' = a)
    (appointments st)
    (appointments (updateStatus uuid now id status reason st)).
Proof.
  rewrite updateStatus_appointments.
  apply Forall2_fmap_r, Forall2_same_length_lookup.
  split; [done|]. intros i a a' H1 H2.
  assert (a' = a) as -> by congruence. simpl.
  case_decide; [|done]. simpl.
  destruct reason as [r|]; [|done].
  case_decide as Hr.
  - subst r. done.
  - by apply or_opt_supplied.
Qed.

(** ** Marking an appointment as missed *)

Lemma isAfter_true a b : isAfter a b = true ↔ b < a.
Proof. unfold isAfter. apply bool_decide_eq_true. Qed.

Lemma isBefore_true a b : isBefore a b = true ↔ a < b.
Proof. unfold isBefore. apply bool_decide_eq_true. Qed.

Lemma isBefore_false a b : isBefore a b = false ↔ b ≤ a.
Proof. unfold isBefore. rewrite bool_decide_eq_false. lia. Qed.

(** C6. Let [app] be the appointment that [id] denotes.  When its date is
    after [now], asking for [Missed] raises the alert, the reason editor
    does not open and the state is unchanged.  The transition goes through
    only when the date is at or before [now], and then it does go through:
    [app] comes out [Missed]. *)
Theorem missed_only_when_not_future uuid now id reason st app :
  findAppointment id (appointments st) = Some app →
  (now < a_date app →
     (∃ msg, handleStatusUpdate uuid now id MISSED st = Refused msg)
     ∧ (∃ msg, recordMissed uuid now id reason st = (Alert msg, st)))
  ∧ (fst (recordMissed uuid now id reason st) = Done → a_date app ≤ now)
  ∧ (a_date app ≤ now →
     fst (recordMissed uuid now id reason st) = Done
     ∧ withStatus MISSED (Some reason) app
         ∈ appointments (snd (recordMissed uuid now id reason st))).
Proof.
  intros Hfind. unfold recordMissed, handleStatusUpdate. rewrite Hfind.
  destruct (isAfter (a_date app) now) eqn:E.
  - apply isAfter_true in E. split_and!.
    + intros _. split; eauto.
    + simpl. done.
    + lia.
  - apply not_true_iff_false in E. rewrite isAfter_true in E. split_and!.
    + lia.
    + intros _. lia.
    + intros _. split; [done|]. simpl. unfold saveReason.
      rewrite updateStatus_appointments.
      apply findAppointment_Some in Hfind as [Hin Hid].
      apply list_elem_of_fmap. exists app. split; [|done].
      by rewrite decide_True.
Qed.

Lemma missed_only_when_not_future_witness :
  (∃ msg, recordMissed "u1" demo_now "a1" "No show"
            (demo_state SCHEDULED (demo_now + msPerDay))
          = (Alert msg, demo_state SCHEDULED (demo_now + msPerDay)))
  ∧ fst (recordMissed "u1" demo_now "a1" "No show"
           (demo_state SCHEDULED (demo_now - msPerDay))) = Done.
Proof.
  split.
  - apply (missed_only_when_not_future "u1" demo_now "a1" "No show"
             (demo_state SCHEDULED (demo_now + msPerDay))
             (demo_appointment SCHEDULED (demo_now + msPerDay))).
    + reflexivity.
    + vm_compute. reflexivity.
  - apply (missed_only_when_not_future "u1" demo_now "a1" "No show"
             (demo_state SCHEDULED (demo_now - msPerDay))
             (demo_appointment SCHEDULED (demo_now - msPerDay))).
    + reflexivity.
    + vm_compute. discriminate.
Defined.

(** ** Sorting *)

Lemma StronglySorted_impl {A} (R S : A → A → Prop) l :
  (∀ a b, R a b → S a b) → StronglySorted R l → StronglySorted S l.
Proof.
  intros HRS. induction 1 as [|x l _ IH Hx]; constructor; [done|].
  eapply Forall_impl; [exact Hx|]. intros y. apply HRS.
Qed.

Section JsSort.
Context {A : Type} (cmp : A → A → Z).

Lemma insertSorted_Permutation x l : JsArray.insertSorted cmp x l ≡ₚ x :: l.
Proof.
  induction l as [|y l IH]; simpl; [done|].
  case_bool_decide; [done|]. rewrite IH. apply Permutation_swap.
Qed.

Lemma sort_Permutation l : JsArray.sort cmp l ≡ₚ l.
Proof.
  induction l as [|x l IH]; simpl; [done|].
  unfold JsArray.sort in *. simpl. by rewrite insertSorted_Permutation, IH.
Qed.

Hypothesis cmp_total : ∀ a b, cmp a b ≤ 0 ∨ cmp b a ≤ 0.
Hypothesis cmp_trans : ∀ a b c, cmp a b ≤ 0 → cmp b c ≤ 0 → cmp a c ≤ 0.

Lemma insertSorted_StronglySorted x l :
  StronglySorted (λ a b, cmp a b ≤ 0) l →
  StronglySorted (λ a b, cmp a b ≤ 0) (JsArray.insertSorted cmp x l).
Proof.
  induction 1 as [|y l Hs IH Hy]; simpl.
  - repeat constructor.
  - case_bool_decide as Hc.
    + constructor; [by constructor|]. constructor; [done|].
      eapply Forall_impl; [exact Hy|]. intros z Hz. by eapply cmp_trans.
    + constructor; [done|].
      rewrite insertSorted_Permutation. constructor; [|done].
      destruct (cmp_total x y); [done|done].
Qed.

Lemma sort_StronglySorted l :
  StronglySorted (λ a b, cmp a b ≤ 0) (JsArray.sort cmp l).
Proof.
  induction l as [|x l IH]; [constructor|].
  unfold JsArray.sort in *. simpl. by apply insertSorted_StronglySorted.
Qed.
End JsSort.

(** ** What the timeline offers *)

Lemma matchesSearch_found subjects searchTerm app :
  matchesSearch subjects searchTerm app = true →
  is_Some (findSubject (a_subjectId app) subjects).
Proof. unfold matchesSearch. by destruct (findSubject _ _). Qed.

(** An appointment listed in the timeline is stored and belongs to a
    subject of the directory. *)
Lemma processedData_elem subjects appointments searchTerm statusFilter monthFilter sortOrder app :
  app ∈ processedData subjects appointments searchTerm statusFilter monthFilter sortOrder →
  app ∈ appointments ∧ is_Some (findSubject (a_subjectId app) subjects).
Proof.
  unfold processedData. rewrite sort_Permutation. intros Happ.
  apply list_elem_of_filter in Happ as [Hm Hin]. split; [done|].
  apply andb_true_iff in Hm as [Hm _]. apply andb_true_iff in Hm as [Hsearch _].
  by eapply matchesSearch_found.
Qed.

(** ** The change log *)

(** The entry [addChangeLog] appends. *)
Lemma addChangeLog_changeLogs uuid now type sub details comment st :
  changeLogs (addChangeLog uuid now type sub details comment st)
  = changeLogs st ++
      [ {| l_id := uuid; l_timestamp := now; l_subjectId := s_id sub;
           l_subjectName := s_name sub; l_changeType := type;
           l_details := details; l_comment := comment |} ].
Proof. done. Qed.

(** The log only grows: every handler of [App] keeps the entries it found. *)
Lemma handleSubjectChange_log_prefix uuid now type sub comment st :
  changeLogs st `prefix_of` changeLogs (snd (handleSubjectChange uuid now type sub comment st)).
Proof.
  unfold handleSubjectChange.
  destruct type; simpl; repeat case_match; simpl; try done;
    by apply prefix_app_r.
Qed.

Lemma updateStatus_log_prefix uuid now id status reason st :
  changeLogs st `prefix_of` changeLogs (updateStatus uuid now id status reason st).
Proof.
  unfold updateStatus. repeat case_match; simpl; try done; by apply prefix_app_r.
Qed.

(** What the other handlers leave in the log. *)
Lemma handleRescheduleSubmit_changeLogs now rescheduleApp rescheduleDate rescheduleTime st :
  changeLogs (snd (handleRescheduleSubmit now rescheduleApp rescheduleDate rescheduleTime st))
  = changeLogs st.
Proof.
  unfold handleRescheduleSubmit. by repeat case_match.
Qed.

Lemma handleCompletionSubmit_changeLogs uuid now f st :
  let result := handleCompletionSubmit uuid now f st in
  changeLogs (snd result) = changeLogs st
  ∨ (postVisitAction f = Some EXIT
     ∧ fst result = Done
     ∧ ∃ sub,
         changeLogs (snd result)
         = changeLogs st ++
             [ mkChangeLogEntry uuid now (s_id sub) (s_name sub) DELETE
                 "Exited Subject from study"
                 (exitNote (exitReason f) (exitOtherReason f) (exitDate f)
                    (isApproximate f)) ]).
Proof.
  unfold handleCompletionSubmit.
  destruct (completionApp f) as [app|]; [|by left].
  destruct (_ && _); [by left|].
  destruct (postVisitAction f) as [[]|]; [| |by left].
  - left. by repeat case_match.
  - destruct (completionDate f) as [day|]; [|by left].
    destruct (findSubject _ _) as [sub|]; [|by left].
    destruct (_ && _); [by left|].
    right. split_and!; [done..|]. by exists sub.
Qed.

Lemma handleBulkAdd_changeLogs uuid now items st :
  ∃ entries,
    changeLogs (snd (handleBulkAdd uuid now items st)) = changeLogs st ++ entries
    ∧ (length entries ≤ 2)%nat
    ∧ Forall (λ e, l_timestamp e = now ∧ l_subjectId e = "BATCH"
                   ∧ l_comment e = "Bulk Entry Operation") entries.
Proof.
  unfold handleBulkAdd.
  destruct (bulkLoop _ _ _ _ _) as [acc|]; simpl.
  2:{ exists []. rewrite app_nil_r. split_and!; [done|simpl; lia|constructor]. }
  destruct (_ || _); case_bool_decide; simpl.
  - eexists [_; _]. rewrite <- app_assoc. split_and!; [done|simpl; lia|repeat constructor].
  - eexists [_]. split_and!; [done|simpl; lia|repeat constructor].
  - eexists [_]. split_and!; [done|simpl; lia|repeat constructor].
  - exists []. rewrite app_nil_r. split_and!; [done|simpl; lia|constructor].
Qed.

(** C5, as the code has it.  A subject created, updated or exited through
    [handleSubjectChange] appends exactly one entry, stamped [now], with
    the identifier and the name of the subject passed in, the change type,
    the generated details and the comment.  A status change through
    [updateStatus] that does change the status appends exactly one such
    entry, of type [UPDATE], when the subject of the appointment is in the
    directory, and none when it is not; the timeline offers only
    appointments of subjects of the directory, so that an appointment
    listed there and marked as missed always gets its entry.  The other
    status transitions are not logged: a reschedule appends nothing, a
    completion appends nothing but the [DELETE] entry of an exit chosen in
    its modal, and the bootstrap effect, auto-miss pass included, leaves
    the log as it was saved.  A bulk import appends at most two entries
    filed under BATCH, whatever the number of subjects it creates or
    updates. *)
Theorem change_log_entries uuid now st :
  (∀ sub comment,
     findSubject (s_id sub) (subjects st) = None →
     changeLogs (snd (handleSubjectChange uuid now CREATE sub comment st))
     = changeLogs st ++
         [ mkChangeLogEntry uuid now (s_id sub) (s_name sub) CREATE
             "Created new subject entry" comment ])
  ∧ (∀ sub comment,
       findSubject (s_id sub) (subjects st) ≠ None →
       changeLogs (snd (handleSubjectChange uuid now UPDATE sub comment st))
       = changeLogs st ++
           [ mkChangeLogEntry uuid now (s_id sub) (s_name sub) UPDATE
               "Updated subject details" comment ])
  ∧ (∀ sub comment,
       changeLogs (snd (handleSubjectChange uuid now DELETE sub comment st))
       = changeLogs st ++
           [ mkChangeLogEntry uuid now (s_id sub) (s_name sub) DELETE
               "Exited Subject from study" comment ])
  ∧ (∀ id status reason old,
       findAppointment id (appointments st) = Some old →
       a_status old ≠ status →
       changeLogs (updateStatus uuid now id status reason st)
       = match findSubject (a_subjectId old) (subjects st) with
         | Some sub =>
             changeLogs st ++
               [ mkChangeLogEntry uuid now (s_id sub) (s_name sub) UPDATE
                   ("Status: " +:+ statusText (a_status old) +:+ " -> " +:+ statusText status)
                   ("Manual change. " +:+ default "" reason) ]
         | None => changeLogs st
         end)
  ∧ (∀ app searchTerm statusFilter monthFilter sortOrder reason,
       app ∈ processedData (subjects st) (appointments st)
               searchTerm statusFilter monthFilter sortOrder →
       findAppointment (a_id app) (appointments st) = Some app →
       a_status app ≠ MISSED →
       a_date app ≤ now →
       ∃ sub,
         findSubject (a_subjectId app) (subjects st) = Some sub
         ∧ fst (recordMissed uuid now (a_id app) reason st) = Done
         ∧ changeLogs (snd (recordMissed uuid now (a_id app) reason st))
           = changeLogs st ++
               [ mkChangeLogEntry uuid now (s_id sub) (s_name sub) UPDATE
                   ("Status: " +:+ statusText (a_status app) +:+ " -> Missed")
                   ("Manual change. " +:+ reason) ])
  ∧ (∀ rescheduleApp rescheduleDate rescheduleTime,
       changeLogs (snd (handleRescheduleSubmit now rescheduleApp rescheduleDate
                          rescheduleTime st))
       = changeLogs st)
  ∧ (∀ f,
       let result := completeAppointment uuid now f st in
       (postVisitAction f ≠ Some EXIT → changeLogs (snd result) = changeLogs st)
       ∧ (changeLogs (snd result) = changeLogs st
          ∨ (fst result = Done
             ∧ ∃ sub,
                 changeLogs (snd result)
                 = changeLogs st ++
                     [ mkChangeLogEntry uuid now (s_id sub) (s_name sub) DELETE
                         "Exited Subject from study"
                         (exitNote (exitReason f) (exitOtherReason f) (exitDate f)
                            (isApproximate f)) ])))
  ∧ (∀ loaded savedSubs savedApps savedLogs,
       changeLogs (bootstrap loaded now savedSubs savedApps savedLogs)
       = match savedLogs with Some logs => logs | None => [] end)
  ∧ (∀ uuids items,
       ∃ entries,
         changeLogs (snd (handleBulkAdd uuids now items st)) = changeLogs st ++ entries
         ∧ (length entries ≤ 2)%nat
         ∧ Forall (λ e, l_timestamp e = now ∧ l_subjectId e = "BATCH"
                        ∧ l_comment e = "Bulk Entry Operation") entries).
Proof.
  split_and!.
  - intros sub comment H. unfold handleSubjectChange. by rewrite H.
  - intros sub comment H. unfold handleSubjectChange.
    by destruct (findSubject _ _).
  - done.
  - intros id status reason old Hfind Hne. unfold updateStatus.
    rewrite Hfind, decide_True by done.
    destruct (findSubject _ _) as [sub|]; [|done].
    rewrite addChangeLog_changeLogs. simpl. do 4 f_equal.
    unfold or_str. destruct reason as [r|]; simpl; [|done].
    destruct (truthy r) eqn:E; [done|]. by apply truthy_false in E.
  - intros app searchTerm statusFilter monthFilter sortOrder reason Hlisted Hfind Hne Hdate.
    apply processedData_elem in Hlisted as [_ [sub Hsub]].
    exists sub. split; [done|].
    unfold recordMissed, handleStatusUpdate. rewrite Hfind.
    assert (isAfter (a_date app) now = false) as ->.
    { apply not_true_iff_false. rewrite isAfter_true. lia. }
    simpl. split; [done|].
    unfold saveReason, updateStatus. rewrite Hfind, decide_True, Hsub by done.
    rewrite addChangeLog_changeLogs. simpl. do 4 f_equal.
    unfold or_str. destruct (truthy reason) eqn:E; [done|]. by apply truthy_false in E.
  - intros. apply handleRescheduleSubmit_changeLogs.
  - intros f result. subst result. unfold completeAppointment.
    destruct (completionFormValid now f); simpl; [|by split; [|left]].
    destruct (handleCompletionSubmit_changeLogs uuid now f st) as [H|(Hexit & Hdone & H)].
    + split; [done|by left].
    + split; [done|]. right. by split.
  - by intros loaded savedSubs savedApps [logs|].
  - intros uuids items. apply handleBulkAdd_changeLogs.
Qed.

(** With subject S002 in the directory: a new subject is created, S002 is
    edited, its appointment is cancelled through [updateStatus], and its
    appointment of the day before, still [Scheduled] and listed in the
    timeline, is marked as missed. *)
Lemma change_log_entries_witness :
  changeLogs (snd (handleSubjectChange "u1" demo_now CREATE
                     (batchSubject "A009" "Ann") "added" (demo_state SCHEDULED demo_now)))
  = [ mkChangeLogEntry "u1" demo_now "A009" "Ann" CREATE "Created new subject entry" "added" ]
  ∧ changeLogs (snd (handleSubjectChange "u1" demo_now UPDATE
                       demo_subject "edited" (demo_state SCHEDULED demo_now)))
    = [ mkChangeLogEntry "u1" demo_now "S002" "Bob Smith (SJH)" UPDATE
          "Updated subject details" "edited" ]
  ∧ changeLogs (updateStatus "u1" demo_now "a1" CANCELLED None (demo_state SCHEDULED demo_now))
    = [ mkChangeLogEntry "u1" demo_now "S002" "Bob Smith (SJH)" UPDATE
          "Status: Scheduled -> Cancelled" "Manual change. " ]
  ∧ changeLogs (snd (recordMissed "u1" demo_now "a1" "No show"
                       (demo_state SCHEDULED (demo_now - msPerDay))))
    = [ mkChangeLogEntry "u1" demo_now "S002" "Bob Smith (SJH)" UPDATE
          "Status: Scheduled -> Missed" "Manual change. No show" ].
Proof.
  pose proof (change_log_entries "u1" demo_now (demo_state SCHEDULED demo_now))
    as (Hc & Hu & _ & Hs & _).
  pose proof (change_log_entries "u1" demo_now (demo_state SCHEDULED (demo_now - msPerDay)))
    as (_ & _ & _ & _ & Hm & _).
  split_and!.
  - apply (Hc (batchSubject "A009" "Ann") "added"). reflexivity.
  - apply (Hu demo_subject "edited"). discriminate.
  - apply (Hs "a1" CANCELLED None (demo_appointment SCHEDULED demo_now)).
    + reflexivity.
    + discriminate.
  - destruct (Hm (demo_appointment SCHEDULED (demo_now - msPerDay)) "" None "ALL" asc "No show")
      as (sub & Hsub & _ & Hlog).
    + vm_compute. apply list_elem_of_here.
    + reflexivity.
    + discriminate.
    + vm_compute. discriminate.
    + injection Hsub as <-. exact Hlog.
Defined.

(** C5, counterexample to the specification as written.  On 3 November
    2025 at 10:00, with subject S002 in the directory:
    - its [Scheduled] appointment is completed from the timeline, with a
      next visit, and goes from [Scheduled] to [Completed];
    - its [Missed] appointment of the day before is rescheduled to the next
      day and goes from [Missed] to [Scheduled];
    - its [Scheduled] appointment of the day before is found past by the
      bootstrap effect and goes from [Scheduled] to [Missed];
    and the log receives nothing in any of the three.  A bulk import of two
    rows creates the two subjects A010 and A011 and appends one entry for
    both, filed under BATCH, beside the one that counts the appointments.
    Last, [updateStatus] called for the appointment of a subject that has
    left the directory changes the status and appends nothing. *)
Lemma status_change_without_entry :
  let completed :=
    completeAppointment "u1" demo_now
      (demo_next_visit (demo_appointment SCHEDULED demo_now) (toDay demo_now))
      (demo_state SCHEDULED demo_now) in
  let rescheduled :=
    handleRescheduleSubmit demo_now (Some (demo_appointment MISSED (demo_now - msPerDay)))
      (Some (toDay demo_now + 1)) (Some 600) (demo_state MISSED (demo_now - msPerDay)) in
  let started :=
    bootstrap demo_now demo_now (Some [demo_subject])
      (Some [demo_appointment SCHEDULED (demo_now - msPerDay)]) (Some []) in
  let imported :=
    handleBulkAdd demo_uuid demo_now [demo_row_first; demo_row_other]
      (demo_state SCHEDULED demo_now) in
  let cancelled :=
    updateStatus "u1" demo_now "a1" CANCELLED None (demo_state_exited SCHEDULED demo_now) in
  (fst completed = Done
   ∧ a_status <$> appointments (snd completed) = [COMPLETED; SCHEDULED]
   ∧ changeLogs (snd completed) = [])
  ∧ (fst rescheduled = Done
     ∧ a_status <$> appointments (snd rescheduled) = [SCHEDULED]
     ∧ changeLogs (snd rescheduled) = [])
  ∧ (a_status <$> appointments started = [MISSED]
     ∧ changeLogs started = [])
  ∧ (fst imported = Done
     ∧ s_id <$> subjects (snd imported) = ["S002"; "A010"; "A011"]
     ∧ l_subjectId <$> changeLogs (snd imported) = ["BATCH"; "BATCH"]
     ∧ l_details <$> changeLogs (snd imported)
       = ["Added 2 new subjects and updated 0."; "Bulk scheduled 2 appointments."])
  ∧ (a_status <$> appointments (demo_state_exited SCHEDULED demo_now) = [SCHEDULED]
     ∧ a_status <$> appointments cancelled = [CANCELLED]
     ∧ changeLogs cancelled = []).
Proof. vm_compute. split_and!; reflexivity. Qed.

(** ** Rescheduling *)

Lemma updateAppointment_appointments updated st :
  appointments (updateAppointment updated st)
  = (λ a, if decide (a_id a = a_id updated) then updated else a) <$> appointments st.
Proof. done. Qed.

(** C7, as the code has it.  With an appointment, a date and a time in the
    modal, the submission goes through exactly when the new instant is not
    before the start of the current day; the start of the day itself is
    accepted.  A refusal raises the alert and leaves the state unchanged.
    On success the appointment that carries the identifier is replaced by
    one with the same identifier and subject, the new date, the status
    [Scheduled] and, after the notes the appointment of the modal had (the
    empty text when it had none), a note recording the original date; the
    other appointments, the subjects and the log are untouched. *)
Theorem reschedule_not_before_today now app day minutes st :
  let newIso := dateTime day minutes in
  let result := handleRescheduleSubmit now (Some app) (Some day) (Some minutes) st in
  (fst result = Done ↔ startOfDay now ≤ newIso)
  ∧ (newIso < startOfDay now → ∃ msg, result = (Alert msg, st))
  ∧ (startOfDay now ≤ newIso →
       subjects (snd result) = subjects st
       ∧ changeLogs (snd result) = changeLogs st
       ∧ Forall2
           (λ a a',
              if decide (a_id a = a_id app) then
                a_id a' = a_id app
                ∧ a_subjectId a' = a_subjectId app
                ∧ a_date a' = newIso
                ∧ a_status a' = SCHEDULED
                ∧ a_notes a'
                  = Some (match a_notes app with
                          | Some stored => stored
                          | None => ""
                          end +:+ " [System: Rescheduled from "
                            +:+ toLocaleDateString (a_date app) +:+ "]")
              else a' = a)
           (appointments st) (appointments (snd result))).
Proof.
  intros newIso result. subst result. unfold handleRescheduleSubmit. fold newIso.
  destruct (isBefore newIso (startOfDay now)) eqn:E.
  - apply isBefore_true in E. split_and!.
    + simpl. split; [done|lia].
    + eauto.
    + lia.
  - apply isBefore_false in E. split_and!.
    + done.
    + lia.
    + intros _. simpl. split_and!; [done..|].
      apply Forall2_fmap_r, Forall2_same_length_lookup.
      split; [done|]. intros i a a' H1 H2.
      assert (a' = a) as -> by congruence. simpl.
      case_decide; [|done]. split_and!; done.
Qed.

(** The missed appointment of the day before, booked with the note "Bring
    reports", is rescheduled to 10:00 of the next day. *)
Lemma reschedule_not_before_today_witness :
  let app := demo_appointment_noted MISSED (demo_now - msPerDay) in
  let st := demo_state_noted MISSED (demo_now - msPerDay) in
  let result :=
    handleRescheduleSubmit demo_now (Some app) (Some (toDay demo_now + 1)) (Some 600) st in
  fst result = Done
  ∧ Forall2
      (λ a a', a_id a' = "a1" ∧ a_status a' = SCHEDULED
               ∧ a_date a' = demo_now + msPerDay
               ∧ a_notes a' = Some "Bring reports [System: Rescheduled from 11/2/2025]")
      (appointments st) (appointments (snd result)).
Proof.
  intros app st result.
  pose proof (reschedule_not_before_today demo_now app (toDay demo_now + 1) 600 st)
    as (Hiff & _ & Hok).
  assert (startOfDay demo_now ≤ dateTime (toDay demo_now + 1) 600) as Hle
    by (vm_compute; discriminate).
  split.
  - by apply Hiff.
  - destruct (Hok Hle) as (_ & _ & HF).
    apply Forall2_cons_inv_l in HF as (a' & rest & H & HF & Heq).
    apply Forall2_nil_inv_l in HF as ->.
    subst result. rewrite Heq. rewrite decide_True in H by done.
    destruct H as (Hid & _ & Hd & Hs & Hn).
    constructor; [|constructor]. rewrite Hid, Hs, Hd, Hn. done.
Defined.

(** C7, counterexample to the specification as written: on 3 November 2025 at 10:00
    a missed appointment is rescheduled to 3 November 2025 at 00:00, which
    is the start of the current day and not after it; the handler accepts. *)
Lemma reschedule_at_start_of_day :
  let app := demo_appointment MISSED (demo_now - msPerDay) in
  let st := demo_state MISSED (demo_now - msPerDay) in
  let result := handleRescheduleSubmit demo_now (Some app) (Some (toDay demo_now)) (Some 0) st in
  dateTime (toDay demo_now) 0 = startOfDay demo_now
  ∧ ¬ (startOfDay demo_now < dateTime (toDay demo_now) 0)
  ∧ fst result = Done
  ∧ a_status <$> appointments (snd result) = [SCHEDULED]
  ∧ a_date <$> appointments (snd result) = [startOfDay demo_now].
Proof. vm_compute. split_and!; try done. Qed.

(** ** The exit workflow *)

Lemma exitNote_text r other exitDate approx :
  exitNote r other exitDate approx
  = "Exit Study: "
      +:+ (if decide (r = Exit_OTHER) then "OTHER: " +:+ other else exitReasonText r)
      +:+ " on " +:+ exitDate +:+ (if approx then " (approx)" else "").
Proof. done. Qed.

(** C8, as the code has it.  With the reason [OTHER] and a text that is
    empty or made of white space only, the exit is refused and nothing
    changes.  With any other reason, or with [OTHER] and a text that is not
    blank, it goes through: the subject is no longer found in the
    directory, the log receives exactly one entry, of type [DELETE], whose
    comment carries the reason, the date and the approximation marker, and
    the appointments, those of the subject included, are all still there. *)
Theorem exit_requires_other_text uuid now sub reason other exitDate approx st :
  let result := exitSubject uuid now sub reason other exitDate approx st in
  (reason = Exit_OTHER ∧ trim other = "" →
     result = (Alert "Please specify the 'Other' reason.", st))
  ∧ (reason ≠ Exit_OTHER ∨ trim other ≠ "" →
       fst result = Done
       ∧ subjects (snd result) = filter (λ s, s_id s ≠ s_id sub) (subjects st)
       ∧ findSubject (s_id sub) (subjects (snd result)) = None
       ∧ changeLogs (snd result)
         = changeLogs st ++
             [ mkChangeLogEntry uuid now (s_id sub) (s_name sub) DELETE
                 "Exited Subject from study"
                 ("Exit Study: "
                    +:+ (if decide (reason = Exit_OTHER)
                         then "OTHER: " +:+ other else exitReasonText reason)
                    +:+ " on " +:+ exitDate +:+ (if approx then " (approx)" else "")) ]
       ∧ appointments (snd result) = appointments st
       ∧ filter (λ a, a_subjectId a = s_id sub) (appointments (snd result))
         = filter (λ a, a_subjectId a = s_id sub) (appointments st)).
Proof.
  intros result. subst result. unfold exitSubject, handleSubmit. simpl.
  split.
  - intros [-> Hblank]. rewrite Hblank. done.
  - intros Hok.
    assert (bool_decide (reason = Exit_OTHER) && negb (truthy (trim other)) = false) as ->.
    { apply andb_false_iff. destruct Hok as [Hr | Ht].
      - left. by apply bool_decide_eq_false.
      - right. apply negb_false_iff. by apply truthy_true. }
    simpl. split_and!; try done.
    apply findSubject_filter_ne.
Qed.

(** Subject S002 leaves with the reason [OTHER] and the text "moved away". *)
Lemma exit_requires_other_text_witness :
  let st := demo_state SCHEDULED demo_now in
  let result := exitSubject "u1" demo_now demo_subject Exit_OTHER "moved away"
                  "2025-11-03" true st in
  exitSubject "u1" demo_now demo_subject Exit_OTHER "" "2025-11-03" true st
    = (Alert "Please specify the 'Other' reason.", st)
  ∧ fst result = Done
  ∧ subjects (snd result) = []
  ∧ changeLogs (snd result)
    = [ mkChangeLogEntry "u1" demo_now "S002" "Bob Smith (SJH)" DELETE
          "Exited Subject from study"
          "Exit Study: OTHER: moved away on 2025-11-03 (approx)" ]
  ∧ filter (λ a, a_subjectId a = "S002") (appointments (snd result))
    = [demo_appointment SCHEDULED demo_now].
Proof.
  intros st result.
  pose proof (exit_requires_other_text "u1" demo_now demo_subject Exit_OTHER ""
                "2025-11-03" true st) as [Hno _].
  pose proof (exit_requires_other_text "u1" demo_now demo_subject Exit_OTHER "moved away"
                "2025-11-03" true st) as [_ Hyes].
  split; [apply Hno; split; reflexivity|].
  destruct Hyes as (Hd & Hs & _ & Hl & _ & Ha); [right; vm_compute; discriminate|].
  split_and!.
  - exact Hd.
  - subst result. rewrite Hs. reflexivity.
  - subst result. rewrite Hl. reflexivity.
  - exact Ha.
Defined.

(** C8, counterexample to the specification as written: the text " " is not empty,
    and the exit with the reason [OTHER] is refused all the same. *)
Lemma exit_refused_on_blank_text :
  let st := demo_state SCHEDULED demo_now in
  " " ≠ ""
  ∧ exitSubject "u1" demo_now demo_subject Exit_OTHER " " "2025-11-03" false st
    = (Alert "Please specify the 'Other' reason.", st).
Proof. split; [discriminate|reflexivity]. Qed.

(** A text made of a no-break space, a tabulation and a line feed is
    blank as well. *)
Example exit_refused_on_no_break_space :
  let st := demo_state SCHEDULED demo_now in
  trim (NBSP +:+ TAB +:+ LF) = ""
  ∧ exitSubject "u1" demo_now demo_subject Exit_OTHER (NBSP +:+ TAB +:+ LF)
      "2025-11-03" false st
    = (Alert "Please specify the 'Other' reason.", st).
Proof. split; reflexivity. Qed.

(** ** Completion and the correction window *)

Lemma startOfDay_toDay t : startOfDay t = toDay t * msPerDay.
Proof.
  unfold startOfDay, toDay.
  pose proof (Z.div_mod t msPerDay) as H. unfold msPerDay in *. lia.
Qed.

Lemma toDay_subDays t n : toDay (subDays t n) = toDay t - n.
Proof.
  unfold toDay, subDays.
  replace (t - n * msPerDay) with (t + (- n) * msPerDay) by lia.
  rewrite Z.div_add by done. lia.
Qed.

Lemma parseISO_before_startOfDay day t :
  parseISO day < startOfDay t ↔ day < toDay t.
Proof. rewrite startOfDay_toDay. unfold parseISO, msPerDay. lia. Qed.

Lemma parseISO_le_now day now : parseISO day ≤ now ↔ day ≤ toDay now.
Proof.
  unfold parseISO, toDay. split.
  - intros H. apply Z.div_le_lower_bound; [done|lia].
  - intros H. pose proof (Z.mul_div_le now msPerDay). unfold msPerDay in *. lia.
Qed.

(** What the handler checks by itself: a correction dated before the day
    five days ago raises the alert and changes nothing.  It has no check of
    its own against a date after today; that bound is the [max] of the date
    input. *)
Lemma handleCompletionSubmit_too_old uuid now f st app day :
  completionApp f = Some app → a_status app = MISSED →
  completionDate f = Some day → day < toDay now - 5 →
  handleCompletionSubmit uuid now f st
  = (Alert "Invalid Completion Date. You cannot record corrected visits more than 5 days in the past.", st).
Proof.
  intros Happ Hst Hday Hlt. unfold handleCompletionSubmit.
  rewrite Happ, Hday, Hst. simpl.
  assert (isBefore (parseISO day) (startOfDay (subDays now 5)) = true) as ->; [|done].
  apply isBefore_true, parseISO_before_startOfDay. rewrite toDay_subDays. lia.
Qed.

Lemma handleCompletionSubmit_recent uuid now f st app day :
  completionApp f = Some app → completionDate f = Some day → toDay now - 5 ≤ day →
  handleCompletionSubmit uuid now f st
  = match postVisitAction f with
    | None => (Alert "Please either schedule the next appointment or exit the study.", st)
    | Some action =>
        let st1 := updateAppointment (completedAppointment app day (isApproximate f)) st in
        match action with
        | NEXT_APPT =>
            match nextApptDate f with
            | None => (Alert "Please select a date for the next appointment.", st1)
            | Some nextDay =>
                match nextApptTime f with
                | None => (Thrown, st1)
                | Some minutes =>
                    (Done,
                     addAppointment
                       (mkAppointment uuid (a_subjectId app) (dateTime nextDay minutes)
                          SCHEDULED None (Some (nextApptNotes f)))
                       st1)
                end
            end
        | EXIT =>
            match findSubject (a_subjectId app) (subjects st) with
            | Some sub =>
                if bool_decide (exitReason f = Exit_OTHER)
                   && negb (truthy (trim (exitOtherReason f)))
                then (Alert "Please specify the 'Other' reason.", st1)
                else
                  handleSubjectChange uuid now DELETE sub
                    (exitNote (exitReason f) (exitOtherReason f) (exitDate f) (isApproximate f))
                    st1
            | None => (Done, st1)
            end
        end
    end.
Proof.
  intros Happ Hday Hle. unfold handleCompletionSubmit. rewrite Happ, Hday.
  assert (isBefore (parseISO day) (startOfDay (subDays now 5)) = false) as ->.
  { apply isBefore_false.
    pose proof (parseISO_before_startOfDay day (subDays now 5)) as H.
    rewrite toDay_subDays in H. lia. }
  rewrite andb_false_r. done.
Qed.

Lemma completionFormValid_date now f app day :
  completionFormValid now f = true →
  completionApp f = Some app → completionDate f = Some day →
  day ≤ toDay now ∧ (a_status app = MISSED → toDay now - 5 ≤ day).
Proof.
  unfold completionFormValid. intros H Happ Hday. rewrite Happ, Hday in H.
  apply andb_true_iff in H as [H _]. apply andb_true_iff in H as [H1 H2].
  apply bool_decide_eq_true in H1. split; [done|].
  intros Hm. rewrite decide_True in H2 by done.
  apply bool_decide_eq_true in H2. by rewrite toDay_subDays in H2.
Qed.

(** C2. For a [Missed] appointment and an attendance date [day] entered in
    the completion modal, with [today] the day of [now]:
    - the correction succeeds only when [today - 5 ≤ day ≤ today], and
      [today - 5] is the day of the instant [now - 5 days];
    - for any [day] outside that window the submission does not succeed
      and the state is unchanged; this holds in particular five days and
      one day ago, [today - 6];
    - both ends are accepted: for any [day] inside the window, [today - 5]
      and [today] included, a submission that schedules the next visit
      succeeds, marks the appointment [Completed] and appends the next
      visit. *)
Theorem correction_window uuid now f st app day :
  completionApp f = Some app →
  a_status app = MISSED →
  completionDate f = Some day →
  let today := toDay now in
  let result := completeAppointment uuid now f st in
  toDay (subDays now 5) = today - 5
  ∧ toDay (subDays now 6) = today - 6
  ∧ (fst result = Done → today - 5 ≤ day ≤ today)
  ∧ (¬ (today - 5 ≤ day ≤ today) → fst result ≠ Done ∧ snd result = st)
  ∧ (today - 5 ≤ day ≤ today →
     ∀ nextDay minutes,
       postVisitAction f = Some NEXT_APPT →
       nextApptDate f = Some nextDay → today ≤ nextDay →
       nextApptTime f = Some minutes →
       fst result = Done
       ∧ appointments (snd result)
         = ((λ a, if decide (a_id a = a_id app)
                  then completedAppointment app day (isApproximate f) else a)
              <$> appointments st)
           ++ [ mkAppointment uuid (a_subjectId app) (dateTime nextDay minutes)
                  SCHEDULED None (Some (nextApptNotes f)) ]).
Proof.
  intros Happ Hst Hday today result.
  assert (completionFormValid now f = true → today - 5 ≤ day ≤ today) as Hvalid.
  { intros Hv. destruct (completionFormValid_date now f app day Hv Happ Hday) as [? Hlo].
    specialize (Hlo Hst). subst today. lia. }
  split_and!.
  - apply toDay_subDays.
  - apply toDay_subDays.
  - subst result. unfold completeAppointment.
    destruct (completionFormValid now f) eqn:Hv; [|done].
    intros _. by apply Hvalid.
  - intros Hout. subst result. unfold completeAppointment.
    destruct (completionFormValid now f) eqn:Hv; [|done].
    destruct Hout. by apply Hvalid.
  - intros Hin nextDay minutes Hact Hnd Hle Hnt. subst result.
    unfold completeAppointment.
    assert (completionFormValid now f = true) as ->.
    { unfold completionFormValid. rewrite Happ, Hday, Hact, Hnd.
      rewrite decide_True by done. rewrite toDay_subDays.
      subst today. rewrite !bool_decide_eq_true_2 by lia. done. }
    rewrite (handleCompletionSubmit_recent uuid now f st app day Happ Hday) by (subst today; lia).
    rewrite Hact, Hnd, Hnt. done.
Qed.

(** A missed appointment of 28 October 2025, corrected on 3 November 2025:
    attended on 29 October (five days ago) it is accepted, attended on
    28 October (six days ago) it is not. *)
Lemma correction_window_witness :
  let app := demo_appointment MISSED (demo_now - 6 * msPerDay) in
  let st := demo_state MISSED (demo_now - 6 * msPerDay) in
  fst (completeAppointment "u1" demo_now
         (demo_next_visit app (toDay (subDays demo_now 5))) st) = Done
  ∧ snd (completeAppointment "u1" demo_now
           (demo_next_visit app (toDay (subDays demo_now 6))) st) = st.
Proof.
  intros app st. split.
  - pose proof (correction_window "u1" demo_now
                  (demo_next_visit app (toDay (subDays demo_now 5))) st app
                  (toDay (subDays demo_now 5)) eq_refl eq_refl eq_refl)
      as (_ & _ & _ & _ & Hin).
    refine (proj1 (Hin _ (toDay demo_now + 1) 600 eq_refl eq_refl _ eq_refl)).
    + vm_compute. split; discriminate.
    + vm_compute. discriminate.
  - pose proof (correction_window "u1" demo_now
                  (demo_next_visit app (toDay (subDays demo_now 6))) st app
                  (toDay (subDays demo_now 6)) eq_refl eq_refl eq_refl)
      as (_ & _ & _ & Hout & _).
    apply Hout. vm_compute. intros [H _]. by apply H.
Defined.

(** The upper end of the window is held by the date input alone: for a
    correction dated tomorrow the modal is not submitted, whereas the
    handler, called on the same values, would go through. *)
Example correction_dated_tomorrow :
  let app := demo_appointment MISSED (demo_now - msPerDay) in
  let st := demo_state MISSED (demo_now - msPerDay) in
  let f := demo_next_visit app (toDay demo_now + 1) in
  completeAppointment "u1" demo_now f st = (Blocked, st)
  ∧ fst (handleCompletionSubmit "u1" demo_now f st) = Done.
Proof. vm_compute. split; reflexivity. Qed.

(** ** Completion and its follow-up *)

(** Without a follow-up choice nothing is written. *)
Lemma completion_requires_follow_up uuid now f st :
  postVisitAction f = None →
  fst (completeAppointment uuid now f st) ≠ Done
  ∧ snd (completeAppointment uuid now f st) = st.
Proof.
  intros Hact. unfold completeAppointment, handleCompletionSubmit.
  destruct (completionFormValid now f); [|done].
  rewrite Hact. repeat case_match; done.
Qed.

(** A submission never both appends an appointment and touches the
    directory or the log. *)
Lemma completion_never_both uuid now f st :
  let st' := snd (completeAppointment uuid now f st) in
  length (appointments st') = length (appointments st)
  ∨ (length (appointments st') = S (length (appointments st))
     ∧ subjects st' = subjects st ∧ changeLogs st' = changeLogs st).
Proof.
  unfold completeAppointment, handleCompletionSubmit, handleSubjectChange.
  repeat case_match; simpl;
    rewrite ?length_app, ?length_fmap; simpl; auto with lia.
Qed.

(** C1, the code at the failing input.  Subject S002 has attended the
    appointment a1; the modal asks for the exit of the subject with the
    reason [OTHER] and a text made of one space.  Every input constraint of
    the modal is met, the handler marks the appointment [Completed], and
    only then finds the text blank: it raises the alert and stops.  The
    status has changed and there is no follow-up: no appointment was added,
    the subject is still in the directory and the log is empty. *)
Theorem completion_without_follow_up :
  let app := demo_appointment SCHEDULED demo_now in
  let st := demo_state SCHEDULED demo_now in
  let f := demo_exit_other app " " in
  let result := completeAppointment "u1" demo_now f st in
  completionFormValid demo_now f = true
  ∧ fst result = Alert "Please specify the 'Other' reason."
  ∧ a_status <$> appointments st = [SCHEDULED]
  ∧ a_status <$> appointments (snd result) = [COMPLETED]
  ∧ length (appointments (snd result)) = length (appointments st)
  ∧ subjects (snd result) = subjects st
  ∧ changeLogs (snd result) = changeLogs st.
Proof. vm_compute. split_and!; reflexivity. Qed.

(** The two follow-ups when the inputs are complete: with the same visit,
    the next-visit choice appends one [Scheduled] appointment and leaves
    the directory alone, and the exit choice with a proper text removes the
    subject, logs one [DELETE] entry and appends no appointment. *)
Example completion_follow_ups :
  let app := demo_appointment SCHEDULED demo_now in
  let st := demo_state SCHEDULED demo_now in
  let next := completeAppointment "u1" demo_now (demo_next_visit app (toDay demo_now)) st in
  let exit := completeAppointment "u1" demo_now (demo_exit_other app "moved away") st in
  fst next = Done
  ∧ a_status <$> appointments (snd next) = [COMPLETED; SCHEDULED]
  ∧ subjects (snd next) = subjects st
  ∧ fst exit = Done
  ∧ a_status <$> appointments (snd exit) = [COMPLETED]
  ∧ subjects (snd exit) = []
  ∧ l_changeType <$> changeLogs (snd exit) = [DELETE].
Proof. vm_compute. split_and!; reflexivity. Qed.

(** ** Bulk import: appointments *)

Lemma bulkSubject_newApps subs now item acc :
  newApps (bulkSubject subs now item acc) = newApps acc.
Proof. unfold bulkSubject. by repeat case_match. Qed.

Lemma bulkLoop_app subs now uuid acc l1 l2 :
  bulkLoop subs now uuid acc (l1 ++ l2)
  = bulkLoop subs now uuid acc l1 ≫= λ acc1, bulkLoop subs now uuid acc1 l2.
Proof.
  revert acc. induction l1 as [|item l1 IH]; intros acc; simpl; [done|].
  destruct (bulkStep subs now uuid acc item); simpl; [apply IH|done].
Qed.

(** The loop runs to its end when every row carries a date. *)
Lemma bulkLoop_total subs now uuid acc items :
  Forall (λ item, b_appointmentDate item ≠ None) items →
  is_Some (bulkLoop subs now uuid acc items).
Proof.
  intros H. revert acc. induction H as [|item items Hd _ IH]; intros acc; simpl; [by eexists|].
  unfold bulkStep. destruct (b_appointmentDate item); [apply IH|done].
Qed.

(** One appointment per row, in the order of the rows. *)
Lemma bulkLoop_newApps subs now uuid acc items acc' :
  bulkLoop subs now uuid acc items = Some acc' →
  ∃ added, newApps acc' = newApps acc ++ added
           ∧ Forall2 (bulkAppointmentOf now) items added.
Proof.
  revert acc. induction items as [|item items IH]; intros acc H; simpl in H.
  - simplify_eq. exists []. by rewrite app_nil_r.
  - unfold bulkStep in H.
    destruct (b_appointmentDate item) as [d|] eqn:Hd; [|done].
    apply IH in H as (added & Heq & HF). simpl in Heq.
    rewrite bulkSubject_newApps in Heq.
    eexists (_ :: added). split; [by rewrite Heq, <- app_assoc|].
    constructor; [|done]. exists d. unfold bulkAppointment. simpl.
    split_and!; try done; by case_bool_decide; case_decide.
Qed.

Lemma handleBulkAdd_appointments uuid now items st acc :
  bulkLoop (subjects st) now uuid (mkBulkAcc [] [] []) items = Some acc →
  fst (handleBulkAdd uuid now items st) = Done
  ∧ appointments (snd (handleBulkAdd uuid now items st)) = appointments st ++ newApps acc.
Proof.
  intros H. unfold handleBulkAdd. rewrite H. split; [done|].
  destruct (newApps acc) as [|a l] eqn:E; simpl.
  - rewrite app_nil_r. by destruct (_ || _).
  - by destruct (_ || _).
Qed.

Lemma handleBulkAdd_thrown uuid now items st :
  bulkLoop (subjects st) now uuid (mkBulkAcc [] [] []) items = None →
  handleBulkAdd uuid now items st = (Thrown, st).
Proof. intros H. unfold handleBulkAdd. by rewrite H. Qed.

(** What [handleParse] calls a valid row. *)
Lemma parseRow_isValid line :
  isValid (parseRow line) = true
  ↔ b_subjectId (row (parseRow line)) ≠ ""
    ∧ b_appointmentDate (row (parseRow line)) ≠ None.
Proof.
  unfold parseRow. simpl. rewrite andb_true_iff, truthy_true, bool_decide_eq_true. done.
Qed.

Lemma handleParse_rows pastedData :
  Forall (λ r, isValid r = true
               ↔ b_subjectId (row r) ≠ "" ∧ b_appointmentDate (row r) ≠ None)
    (handleParse pastedData []).
Proof.
  unfold handleParse. case_match; [done|].
  apply Forall_fmap, Forall_forall. intros line _. apply parseRow_isValid.
Qed.

Lemma handleCommit_appointments uuid now previewData st :
  Forall (λ r, isValid r = true → b_appointmentDate (row r) ≠ None) previewData →
  ∃ added,
    appointments (snd (handleCommit uuid now previewData st)) = appointments st ++ added
    ∧ Forall2 (λ r a, bulkAppointmentOf now (row r) a)
        (filter (λ r, isValid r = true) previewData) added.
Proof.
  intros Hwf. unfold handleCommit.
  set (validRows := filter (λ d, isValid d = true) previewData).
  case_bool_decide as Hlen.
  - exists []. simpl. rewrite app_nil_r. split; [done|].
    apply length_zero_iff_nil in Hlen. rewrite Hlen. constructor.
  - assert (Forall (λ item, b_appointmentDate item ≠ None) (row <$> validRows)) as Hd.
    { apply Forall_fmap, Forall_forall. intros r Hr.
      apply list_elem_of_filter in Hr as [Hv Hin]. simpl.
      rewrite Forall_forall in Hwf. by apply Hwf. }
    destruct (bulkLoop_total (subjects st) now uuid (mkBulkAcc [] [] []) _ Hd) as [acc Hacc].
    destruct (handleBulkAdd_appointments uuid now _ st acc Hacc) as [_ ->].
    apply bulkLoop_newApps in Hacc as (added & Heq & HF). simpl in Heq.
    exists added. rewrite Heq. split; [done|].
    by rewrite Forall2_fmap_l in HF.
Qed.

(** C9. Pasting a text and committing its preview appends, after the
    appointments already stored and without touching them, exactly one
    appointment per valid row, in the order of the rows: for the subject of
    the row, at the date of the row, [Missed] with the reason "Past date on
    bulk entry" when that date is before [now] and [Scheduled] with no
    reason otherwise.  A row is valid exactly when its subject identifier
    is not empty and its appointment date was parsed, so the other rows add
    nothing; in particular three rows of which the second has an
    unparseable date and the others are valid add two appointments. *)
Theorem bulk_one_appointment_per_valid_row uuid now pastedData st :
  let rows := handleParse pastedData [] in
  let result := importBulk uuid now pastedData st in
  Forall (λ r, isValid r = true
               ↔ b_subjectId (row r) ≠ "" ∧ b_appointmentDate (row r) ≠ None) rows
  ∧ ∃ added,
      appointments (snd result) = appointments st ++ added
      ∧ Forall2 (λ r a, bulkAppointmentOf now (row r) a)
          (filter (λ r, isValid r = true) rows) added
      ∧ length added = length (filter (λ r, isValid r = true) rows)
      ∧ (∀ r1 r2 r3,
           rows = [r1; r2; r3] →
           isValid r1 = true → b_appointmentDate (row r2) = None → isValid r3 = true →
           length added = 2%nat).
Proof.
  intros rows result. pose proof (handleParse_rows pastedData) as Hrows. fold rows in Hrows.
  split; [done|].
  destruct (handleCommit_appointments uuid now rows st) as (added & Heq & HF).
  { eapply Forall_impl; [exact Hrows|]. intros r Hr Hv. by apply Hr. }
  exists added. split_and!; [done..| |].
  - symmetry. by eapply Forall2_length.
  - intros r1 r2 r3 Hr H1 H2 H3.
    apply Forall2_length in HF. rewrite <- HF, Hr.
    assert (isValid r2 = false) as H2'.
    { apply not_true_iff_false. intros Hv.
      rewrite Hr in Hrows. apply Forall_cons in Hrows as [_ Hrows].
      apply Forall_cons in Hrows as [Hr2 _]. apply Hr2 in Hv as [_ Hv]. done. }
    rewrite filter_cons_True by done.
    rewrite filter_cons_False by (by rewrite H2').
    by rewrite filter_cons_True by done.
Qed.

(** The three-row example: two appointments are committed, the first
    [Scheduled], the third [Missed]. *)
Lemma bulk_one_appointment_per_valid_row_witness :
  isValid <$> handleParse demo_paste [] = [true; false; true]
  ∧ ∃ added,
      appointments (snd (importBulk demo_uuid demo_now demo_paste
                           (demo_state SCHEDULED demo_now)))
      = appointments (demo_state SCHEDULED demo_now) ++ added
      ∧ length added = 2%nat.
Proof.
  split; [vm_compute; reflexivity|].
  destruct (bulk_one_appointment_per_valid_row demo_uuid demo_now demo_paste
              (demo_state SCHEDULED demo_now))
    as (_ & added & Heq & _ & _ & H3).
  exists added. split; [exact Heq|].
  eapply H3; [vm_compute; reflexivity|reflexivity|reflexivity|reflexivity].
Defined.

Example bulk_three_rows :
  (λ a, (a_subjectId a, a_status a, a_followUpReason a))
    <$> appointments (snd (importBulk demo_uuid demo_now demo_paste
                             (demo_state SCHEDULED demo_now)))
  = [ ("S002", SCHEDULED, None);
      ("A001", SCHEDULED, None);
      ("S002", MISSED, Some "Past date on bulk entry") ].
Proof. vm_compute. reflexivity. Qed.

(** ** Bulk import: subjects *)

Lemma filter_insert_other {A} (P : A → Prop) `{∀ x, Decision (P x)} (l : list A) i x y :
  l !! i = Some x → ¬ P x → ¬ P y → filter P (<[i := y]> l) = filter P l.
Proof.
  revert i. induction l as [|z l IH]; intros i Hi Hx Hy; [done|].
  destruct i as [|i]; simpl in *.
  - simplify_eq. by rewrite !filter_cons_False.
  - rewrite !filter_cons. by rewrite (IH i).
Qed.

Lemma filter_none {A} (P : A → Prop) `{∀ x, Decision (P x)} (l : list A) :
  Forall (λ x, ¬ P x) l → filter P l = [].
Proof.
  induction 1 as [|x l Hx _ IH]; [done|]. by rewrite filter_cons_False.
Qed.

Section BulkSubjects.
Variables (subs : list Subject) (now : Z) (X : string).
Hypothesis fresh : findSubject X subs = None.

Lemma find_existing_ne item i existing :
  list_find (λ s, s_id s = b_subjectId item) subs = Some (i, existing) →
  s_id existing ≠ X.
Proof.
  intros H. apply list_find_Some in H as (Hl & _ & _).
  apply findSubject_None in fresh. rewrite Forall_forall in fresh.
  apply fresh. by eapply list_elem_of_lookup_2.
Qed.

(** Updates are staged for subjects of the directory only. *)
Lemma bulkSubject_updatedSubs item acc :
  Forall (λ u, s_id u ≠ X) (updatedSubs acc) →
  Forall (λ u, s_id u ≠ X) (updatedSubs (bulkSubject subs now item acc)).
Proof.
  intros H. unfold bulkSubject.
  destruct (list_find _ subs) as [[i existing]|] eqn:E.
  - case_decide; [|done]. simpl. apply Forall_app. split; [done|].
    apply Forall_singleton. simpl. by eapply find_existing_ne.
  - by destruct (list_find _ (newSubs acc)) as [[??]|].
Qed.

(** A row for another subject does not stage anything for [X]. *)
Lemma bulkSubject_other item acc :
  b_subjectId item ≠ X →
  filter (λ s : Subject, s_id s = X) (newSubs (bulkSubject subs now item acc)) = filter (λ s : Subject, s_id s = X) (newSubs acc).
Proof.
  intros Hne. unfold bulkSubject.
  destruct (list_find _ subs) as [[i existing]|] eqn:E.
  - by case_decide.
  - destruct (list_find _ (newSubs acc)) as [[??]|]; [done|]. simpl.
    rewrite filter_app, filter_cons_False by done. by rewrite app_nil_r.
Qed.

(** The first row for [X] stages the new subject. *)
Lemma bulkSubject_first item acc :
  b_subjectId item = X →
  filter (λ s : Subject, s_id s = X) (newSubs acc) = [] →
  filter (λ s : Subject, s_id s = X) (newSubs (bulkSubject subs now item acc)) = [bulkNewSubject now item].
Proof.
  intros Hid Hnone. unfold bulkSubject. rewrite Hid.
  assert (list_find (λ s, s_id s = X) subs = None) as ->.
  { unfold findSubject in fresh. by apply fmap_None in fresh. }
  assert (list_find (λ s, s_id s = X) (newSubs acc) = None) as ->.
  { apply list_find_None, Forall_forall. intros s Hs Hx.
    assert (s ∈ filter (λ s : Subject, s_id s = X) (newSubs acc)) as Hin by by apply list_elem_of_filter.
    rewrite Hnone in Hin. by apply not_elem_of_nil in Hin. }
  simpl. rewrite filter_app, Hnone. simpl.
  by rewrite filter_cons_True by done.
Qed.

(** A later row for [X] stages nothing: the subject staged first stays
    as it is. *)
Lemma bulkSubject_later item acc :
  b_subjectId item = X →
  filter (λ s : Subject, s_id s = X) (newSubs acc) ≠ [] →
  newSubs (bulkSubject subs now item acc) = newSubs acc.
Proof.
  intros Hid Hsome. unfold bulkSubject. rewrite Hid.
  assert (list_find (λ s, s_id s = X) subs = None) as ->.
  { unfold findSubject in fresh. by apply fmap_None in fresh. }
  destruct (list_find _ (newSubs acc)) as [[??]|] eqn:E; [done|].
  destruct Hsome. apply list_find_None in E. by apply filter_none.
Qed.

Lemma bulkStep_newSubs uuid acc item acc' :
  bulkStep subs now uuid acc item = Some acc' →
  newSubs acc' = newSubs (bulkSubject subs now item acc)
  ∧ updatedSubs acc' = updatedSubs (bulkSubject subs now item acc).
Proof. unfold bulkStep. destruct (b_appointmentDate item); intros; by simplify_eq. Qed.

Lemma bulkLoop_updatedSubs uuid acc items acc' :
  bulkLoop subs now uuid acc items = Some acc' →
  Forall (λ u, s_id u ≠ X) (updatedSubs acc) →
  Forall (λ u, s_id u ≠ X) (updatedSubs acc').
Proof.
  revert acc. induction items as [|item items IH]; intros acc H Hu; simpl in H.
  - by simplify_eq.
  - destruct (bulkStep subs now uuid acc item) as [acc1|] eqn:E; [|done].
    apply bulkStep_newSubs in E as [_ E]. apply (IH acc1 H).
    rewrite E. by apply bulkSubject_updatedSubs.
Qed.

Lemma bulkLoop_other uuid acc items acc' :
  bulkLoop subs now uuid acc items = Some acc' →
  Forall (λ item, b_subjectId item ≠ X) items →
  filter (λ s : Subject, s_id s = X) (newSubs acc') = filter (λ s : Subject, s_id s = X) (newSubs acc).
Proof.
  revert acc. induction items as [|item items IH]; intros acc H Hne; simpl in H.
  - by simplify_eq.
  - apply Forall_cons in Hne as [Hne Hrest].
    destruct (bulkStep subs now uuid acc item) as [acc1|] eqn:E; [|done].
    apply bulkStep_newSubs in E as [E _].
    rewrite (IH acc1 H Hrest), E. by apply bulkSubject_other.
Qed.

Lemma bulkLoop_later uuid acc items acc' :
  bulkLoop subs now uuid acc items = Some acc' →
  filter (λ s : Subject, s_id s = X) (newSubs acc) ≠ [] →
  filter (λ s : Subject, s_id s = X) (newSubs acc') = filter (λ s : Subject, s_id s = X) (newSubs acc).
Proof.
  revert acc. induction items as [|item items IH]; intros acc H Hsome; simpl in H.
  - by simplify_eq.
  - destruct (bulkStep subs now uuid acc item) as [acc1|] eqn:E; [|done].
    apply bulkStep_newSubs in E as [E _].
    assert (filter (λ s : Subject, s_id s = X) (newSubs acc1) = filter (λ s : Subject, s_id s = X) (newSubs acc)) as Hstep.
    { rewrite E. destruct (decide (b_subjectId item = X)) as [Hid|Hid].
      - by rewrite bulkSubject_later.
      - by apply bulkSubject_other. }
    rewrite (IH acc1 H) by by rewrite Hstep. done.
Qed.

(** The commit pass replaces subjects of the directory in place. *)
Lemma applyUpdate_other next u :
  s_id u ≠ X → filter (λ s : Subject, s_id s = X) (applyUpdate next u) = filter (λ s : Subject, s_id s = X) next.
Proof.
  intros Hu. unfold applyUpdate.
  destruct (list_find _ next) as [[i s]|] eqn:E; [|done].
  apply list_find_Some in E as (Hl & Hid & _).
  eapply filter_insert_other; [done| |done]. simpl. congruence.
Qed.

Lemma applyUpdates_other next us :
  Forall (λ u, s_id u ≠ X) us →
  filter (λ s : Subject, s_id s = X) (foldl applyUpdate next us) = filter (λ s : Subject, s_id s = X) next.
Proof.
  intros H. revert next. induction H as [|u us Hu _ IH]; intros next; simpl; [done|].
  by rewrite IH, applyUpdate_other.
Qed.
End BulkSubjects.

(** C3, as the code has it.  Let a batch hold two rows [r1] and [r2], in
    that order, for a subject identifier that is new to the directory,
    [r1] being the first row of the batch for it, and let every row carry a
    date.  After the import the directory holds exactly one subject with
    that identifier.  It is the one made from [r1]: its name is the name of
    [r1], or "Subject " followed by the identifier when that name is empty,
    its phone is the phone of [r1], its insertion date is the one of [r1],
    or [now] when [r1] has none.  Nothing of [r2] enters it. *)
Theorem bulk_duplicate_rows_one_subject uuid now st l1 r1 l2 r2 l3 :
  let items := l1 ++ r1 :: l2 ++ r2 :: l3 in
  b_subjectId r2 = b_subjectId r1 →
  findSubject (b_subjectId r1) (subjects st) = None →
  Forall (λ item, b_subjectId item ≠ b_subjectId r1) l1 →
  Forall (λ item, b_appointmentDate item ≠ None) items →
  fst (handleBulkAdd uuid now items st) = Done
  ∧ filter (λ s, s_id s = b_subjectId r1) (subjects (snd (handleBulkAdd uuid now items st)))
    = [ {| s_id := b_subjectId r1;
           s_name := if decide (b_name r1 = "") then "Subject " +:+ b_subjectId r1
                     else b_name r1;
           s_email := None;
           s_phone := Some (b_phone r1);
           s_altPhone := None;
           s_insertionDate := Some (default now (b_insertionDate r1));
           s_notes := Some "Auto-created via Bulk Multi-Column Entry" |} ].
Proof.
  intros items Hsame Hfresh Hl1 Hdates.
  set (X := b_subjectId r1) in *.
  destruct (bulkLoop_total (subjects st) now uuid (mkBulkAcc [] [] []) items Hdates)
    as [acc Hacc].
  assert (filter (λ s, s_id s = X) (newSubs acc) = [bulkNewSubject now r1]) as Hnew.
  { subst items. rewrite bulkLoop_app in Hacc.
    destruct (bulkLoop _ _ _ _ l1) as [acc1|] eqn:E1; [|done]. simpl in Hacc.
    eapply bulkLoop_other in E1; [|exact Hl1]. simpl in E1.
    destruct (bulkStep (subjects st) now uuid acc1 r1) as [acc2|] eqn:E2; [|done].
    apply bulkStep_newSubs in E2 as [E2 _].
    assert (filter (λ s, s_id s = X) (newSubs acc2) = [bulkNewSubject now r1]) as H2.
    { rewrite E2. by apply bulkSubject_first. }
    eapply bulkLoop_later in Hacc; [|exact Hfresh|by rewrite H2].
    by rewrite Hacc. }
  assert (Forall (λ u, s_id u ≠ X) (updatedSubs acc)) as Hupd.
  { eapply bulkLoop_updatedSubs; [exact Hfresh|exact Hacc|constructor]. }
  unfold handleBulkAdd. rewrite Hacc. split; [done|].
  assert (bool_decide (0 < length (newSubs acc))%nat = true) as ->.
  { apply bool_decide_eq_true. destruct (newSubs acc); [done|simpl; lia]. }
  simpl.
  assert (∀ st1 : AppState,
            subjects (if bool_decide (0 < length (newApps acc))%nat
                      then addChangeLog (uuid (S (length (newApps acc)))) now CREATE
                             (batchSubject "BATCH" "Bulk Appts")
                             ("Bulk scheduled " +:+ pretty (length (newApps acc))
                                +:+ " appointments.")
                             "Bulk Entry Operation"
                             (setAppointments (λ prev, prev ++ newApps acc) st1)
                      else st1) = subjects st1) as ->.
  { intros st1. by case_bool_decide. }
  simpl. rewrite applyUpdates_other by done.
  rewrite filter_app, Hnew.
  assert (filter (λ s, s_id s = X) (subjects st) = []) as ->.
  { apply filter_none. by apply findSubject_None. }
  simpl. unfold bulkNewSubject, or_str. fold X.
  do 2 f_equal. case_decide as Hn.
  - by rewrite Hn.
  - by apply truthy_true in Hn as ->.
Qed.

(** Two rows for the new subject A010, named Ann in the first and Bea in
    the second. *)
Lemma bulk_duplicate_rows_one_subject_witness :
  filter (λ s, s_id s = "A010")
    (subjects (snd (handleBulkAdd demo_uuid demo_now [demo_row_first; demo_row_second]
                      (demo_state SCHEDULED demo_now))))
  = [ {| s_id := "A010"; s_name := "Ann"; s_email := None; s_phone := Some "111";
         s_altPhone := None; s_insertionDate := Some demo_now;
         s_notes := Some "Auto-created via Bulk Multi-Column Entry" |} ].
Proof.
  apply (bulk_duplicate_rows_one_subject demo_uuid demo_now (demo_state SCHEDULED demo_now)
           [] demo_row_first [] demo_row_second []).
  - reflexivity.
  - reflexivity.
  - constructor.
  - repeat constructor; discriminate.
Defined.

(** C3, counterexample to the specification as written: the second row for A010
    carries the name Bea, the phone 222 and an insertion date, all
    non-empty, and the subject created keeps the name Ann, the phone 111
    and the insertion date [now] of the first row. *)
Lemma bulk_second_row_ignored :
  let st' := snd (handleBulkAdd demo_uuid demo_now [demo_row_first; demo_row_second]
                    (demo_state SCHEDULED demo_now)) in
  b_subjectId demo_row_second = b_subjectId demo_row_first
  ∧ b_name demo_row_second = "Bea"
  ∧ b_phone demo_row_second = "222"
  ∧ b_insertionDate demo_row_second = Some (demo_now - msPerDay)
  ∧ (λ s, (s_name s, s_phone s, s_insertionDate s))
      <$> filter (λ s, s_id s = "A010") (subjects st')
    = [ ("Ann", Some "111", Some demo_now) ].
Proof. vm_compute. split_and!; reflexivity. Qed.

(** * Further properties *)

(** ** The change log page *)

(** The page lists the entries newest first; with the filter on all
    changes it shows every entry of the log exactly once, and with the
    filter on exits exactly the [DELETE] entries. *)
Theorem filteredLogs_newest_first (logs : list ChangeLogEntry) (filterType : FilterType) :
  StronglySorted (λ a b, l_timestamp b ≤ l_timestamp a) (filteredLogs logs filterType)
  ∧ filteredLogs logs Filter_ALL ≡ₚ logs
  ∧ filteredLogs logs Filter_DELETE ≡ₚ filter (λ l, l_changeType l = DELETE) logs
  ∧ Forall (λ l, l_changeType l = DELETE) (filteredLogs logs Filter_DELETE).
Proof.
  split_and!.
  - unfold filteredLogs.
    eapply StronglySorted_impl;
      [|apply (sort_StronglySorted (λ a b, l_timestamp b - l_timestamp a))].
    + intros a b. simpl. lia.
    + intros a b. lia.
    + intros a b c. lia.
  - apply sort_Permutation.
  - apply sort_Permutation.
  - unfold filteredLogs. rewrite sort_Permutation.
    apply Forall_forall. intros l Hl. by apply list_elem_of_filter in Hl as [? _].
Qed.

(** ** The timeline *)

Lemma includes_empty s : JsArray.includes s "" = true.
Proof. by destruct s. Qed.

Lemma matchesSearch_empty subjects app :
  matchesSearch subjects "" app = true
  ↔ is_Some (findSubject (a_subjectId app) subjects).
Proof.
  unfold matchesSearch. destruct (findSubject _ _) as [sub|]; simpl.
  - rewrite includes_empty. split; [by eexists|done].
  - split; [done|]. by intros [? ?].
Qed.

Lemma dateOrder_sorted sortOrder l :
  StronglySorted (λ a b, dateOrder sortOrder a b ≤ 0) (JsArray.sort (dateOrder sortOrder) l).
Proof.
  apply sort_StronglySorted.
  - intros a b. destruct sortOrder; simpl; lia.
  - intros a b c. destruct sortOrder; simpl; lia.
Qed.

(** The timeline is ordered by date in the direction chosen.  What it
    lists is stored, belongs to a subject that is in the directory,
    whatever the search term, and has the status asked for.  With an empty
    search term and no filter it lists, exactly once each, the stored
    appointments whose subject is in the directory. *)
Theorem processedData_listing subjects appointments searchTerm statusFilter monthFilter sortOrder :
  let shown := processedData subjects appointments searchTerm statusFilter monthFilter sortOrder in
  StronglySorted
    (λ a b, match sortOrder with
            | asc => a_date a ≤ a_date b
            | desc => a_date b ≤ a_date a
            end) shown
  ∧ Forall (λ app, app ∈ appointments
                   ∧ is_Some (findSubject (a_subjectId app) subjects)
                   ∧ (∀ s, statusFilter = Some s → a_status app = s)) shown
  ∧ processedData subjects appointments "" None "ALL" sortOrder
    ≡ₚ filter (λ app, is_Some (findSubject (a_subjectId app) subjects)) appointments.
Proof.
  intros shown. subst shown. unfold processedData. split_and!.
  - eapply StronglySorted_impl; [|apply dateOrder_sorted].
    intros a b. destruct sortOrder; simpl; lia.
  - rewrite sort_Permutation. apply Forall_forall. intros app Happ.
    apply list_elem_of_filter in Happ as [Hm Hin].
    apply andb_true_iff in Hm as [Hm _]. apply andb_true_iff in Hm as [Hsearch Hstatus].
    split_and!; [done|by eapply matchesSearch_found|].
    intros s ->. simpl in Hstatus. by apply bool_decide_eq_true in Hstatus.
  - rewrite sort_Permutation.
    erewrite list_filter_iff; [done|].
    intros app. simpl. rewrite andb_true_r, andb_true_r. apply matchesSearch_empty.
Qed.

(** Once a subject has left the directory the timeline shows none of its
    appointments, under any search term and filter, although they are all
    still stored. *)
Theorem timeline_hides_exited_subject uuid now sub comment st
    searchTerm statusFilter monthFilter sortOrder :
  let st' := snd (handleSubjectChange uuid now DELETE sub comment st) in
  appointments st' = appointments st
  ∧ Forall (λ app, a_subjectId app ≠ s_id sub)
      (processedData (subjects st') (appointments st')
         searchTerm statusFilter monthFilter sortOrder).
Proof.
  intros st'. split; [done|].
  destruct (processedData_listing (subjects st') (appointments st')
              searchTerm statusFilter monthFilter sortOrder) as (_ & H & _).
  eapply Forall_impl; [exact H|]. intros app (_ & [s Hs] & _) Heq.
  subst st'. simpl in Hs. rewrite Heq in Hs.
  by rewrite findSubject_filter_ne in Hs.
Qed.

(** ** The dashboard *)

Lemma elem_of_activeSubjectIds id subjects :
  id ∈ Dashboard.activeSubjectIds subjects ↔ ∃ s, s ∈ subjects ∧ s_id s = id.
Proof.
  unfold Dashboard.activeSubjectIds. rewrite elem_of_list_to_set, list_elem_of_fmap.
  split.
  - intros (s & -> & Hs). eauto.
  - intros (s & Hs & <-). eauto.
Qed.

(** The dashboard counts the appointments of the subjects in the directory;
    the exit of a subject takes exactly the appointments of that subject
    out of its figures. *)
Theorem dashboard_excludes_exited_subject uuid now sub comment st :
  let st' := snd (handleSubjectChange uuid now DELETE sub comment st) in
  Dashboard.filteredAppointments (subjects st') (appointments st')
  = filter (λ a, a_subjectId a ≠ s_id sub)
      (Dashboard.filteredAppointments (subjects st) (appointments st))
  ∧ Dashboard.totalSubjects (subjects st')
    = length (filter (λ s, s_id s ≠ s_id sub) (subjects st)).
Proof.
  intros st'. subst st'. simpl. split; [|done].
  unfold Dashboard.filteredAppointments.
  induction (appointments st) as [|a l IH]; [done|].
  rewrite !filter_cons.
  destruct (decide (a_subjectId a ∈ Dashboard.activeSubjectIds (subjects st))) as [Hin|Hin].
  - rewrite filter_cons. destruct (decide (a_subjectId a ≠ s_id sub)) as [Hne|Heq].
    + rewrite decide_True; [by rewrite IH|].
      apply elem_of_activeSubjectIds in Hin as (s & Hs & Hid).
      apply elem_of_activeSubjectIds. exists s. split; [|done].
      apply list_elem_of_filter. split; [congruence|done].
    + rewrite decide_False; [done|].
      intros (s & Hs & Hid)%elem_of_activeSubjectIds.
      apply list_elem_of_filter in Hs as [Hs _]. apply Heq. congruence.
  - rewrite decide_False; [done|].
    intros (s & Hs & Hid)%elem_of_activeSubjectIds. apply Hin.
    apply list_elem_of_filter in Hs as [_ Hs].
    apply elem_of_activeSubjectIds. eauto.
Qed.

(** The three appointment figures of the dashboard count disjoint sets of
    stored appointments: together they never exceed the number of stored
    appointments. *)
Theorem dashboard_figures_bounded now subjects appointments :
  (Dashboard.upcomingAppointments now subjects appointments
   + Dashboard.missedAppointments subjects appointments
   + Dashboard.completedAppointments subjects appointments
   ≤ length appointments)%nat.
Proof.
  unfold Dashboard.upcomingAppointments, Dashboard.missedAppointments,
    Dashboard.completedAppointments.
  transitivity (length (Dashboard.filteredAppointments subjects appointments));
    [|apply length_filter].
  induction (Dashboard.filteredAppointments subjects appointments) as [|a l IH]; [done|].
  rewrite !filter_cons. destruct (a_status a) eqn:E;
    repeat case_decide; simpl; try lia; exfalso; intuition congruence.
Qed.

(** ** Users *)

(** Whatever the storage holds, the session starts with a user named
    admin: a stored list that has one is taken as it is, and any other gets
    the default administrator appended. *)
Theorem loadUsers_has_admin (savedUsers : option (list User)) :
  (∃ u, u ∈ loadUsers savedUsers ∧ u_username u = "admin")
  ∧ (∀ users, savedUsers = Some users →
       loadUsers savedUsers = users
       ∨ (Forall (λ u, u_username u ≠ "admin") users
          ∧ loadUsers savedUsers = users ++ [DEFAULT_ADMIN]))
  ∧ loadUsers (Some (loadUsers savedUsers)) = loadUsers savedUsers.
Proof.
  assert (∀ l, (∃ u, u ∈ loadUsers (Some l) ∧ u_username u = "admin")) as Hsome.
  { intros l. unfold loadUsers. simpl.
    destruct (list_find _ l) as [[i u]|] eqn:E.
    - apply list_find_Some in E as (Hl & Hu & _). exists u.
      split; [by eapply list_elem_of_lookup_2|done].
    - exists DEFAULT_ADMIN. split; [|done]. apply elem_of_app. right. by constructor. }
  assert (∀ l, (∃ u, u ∈ l ∧ u_username u = "admin") → loadUsers (Some l) = l) as Hid.
  { intros l (u & Hin & Hu). unfold loadUsers. simpl.
    destruct (list_find _ l) as [[i v]|] eqn:E; [done|].
    apply list_find_None in E. rewrite Forall_forall in E. by destruct (E u Hin). }
  split_and!.
  - destruct savedUsers as [l|]; [apply Hsome|].
    exists DEFAULT_ADMIN. split; [|done]. vm_compute. by constructor.
  - intros users ->. unfold loadUsers. simpl.
    destruct (list_find _ users) as [[i v]|] eqn:E; [by left|].
    right. split; [|done]. by apply list_find_None in E.
  - apply Hid. destruct savedUsers as [l|]; [apply Hsome|].
    exists DEFAULT_ADMIN. split; [|done]. vm_compute. by constructor.
Qed.

Lemma missing_false x : missing x = false ↔ ∃ s, x = Some s ∧ s ≠ "".
Proof.
  unfold missing. destruct x as [s|].
  - rewrite negb_false_iff, truthy_true. split; [eauto|]. by intros (? & [= <-] & ?).
  - split; [done|]. by intros (? & ? & ?).
Qed.

(** Creating a user either appends one user with the name, password and
    role entered and shows no error, or shows an error and leaves the users
    as they are; it does the latter when a field is empty and when the
    username is taken, so user names that are distinct stay distinct. *)
Theorem handleAdd_unique_usernames (newUser : NewUser) (users : list User) :
  let result := handleAdd newUser users in
  (fst result = ""
   ∧ (∃ username password name,
        nu_username newUser = Some username ∧ username ≠ ""
        ∧ nu_password newUser = Some password ∧ password ≠ ""
        ∧ nu_name newUser = Some name ∧ name ≠ ""
        ∧ Forall (λ u, u_username u ≠ username) users
        ∧ snd result = users ++ [mkUser username password (nu_role newUser) name])
   ∨ fst result ≠ "" ∧ snd result = users)
  ∧ (NoDup (u_username <$> users) → NoDup (u_username <$> snd result)).
Proof.
  intros result. subst result. unfold handleAdd.
  destruct (missing (nu_username newUser)) eqn:E1; simpl.
  { split; [by right|done]. }
  destruct (missing (nu_password newUser)) eqn:E2; simpl.
  { split; [by right|done]. }
  destruct (missing (nu_name newUser)) eqn:E3; simpl.
  { split; [by right|done]. }
  apply missing_false in E1 as (username & Hu & Hu').
  apply missing_false in E2 as (password & Hp & Hp').
  apply missing_false in E3 as (name & Hn & Hn').
  rewrite Hu, Hp, Hn. simpl.
  destruct (list_find _ users) as [[i v]|] eqn:E.
  { split; [by right|done]. }
  apply list_find_None in E.
  assert (Forall (λ u, u_username u ≠ username) users) as Hfresh.
  { eapply Forall_impl; [exact E|]. intros u Hne Heq. apply Hne. by rewrite Heq. }
  split.
  - left. split; [done|]. exists username, password, name. by split_and!.
  - intros Hnd. unfold handleAddUser. simpl. rewrite fmap_app. simpl.
    apply NoDup_app. split_and!; [done| |apply NoDup_singleton].
    intros x Hx Hx'. apply list_elem_of_singleton in Hx'. subst x.
    apply list_elem_of_fmap in Hx as (u & Heq & Hin).
    rewrite Forall_forall in Hfresh. by apply (Hfresh u Hin).
Qed.

(** A user that has just been created can log in with the name and the
    password entered, and gets the account created. *)
Theorem login_after_handleAdd (newUser : NewUser) (users : list User) username password :
  fst (handleAdd newUser users) = "" →
  nu_username newUser = Some username →
  nu_password newUser = Some password →
  ∃ u, handleLogin (snd (handleAdd newUser users)) username password = Some u
       ∧ u_username u = username ∧ u_password u = password
       ∧ u_role u = nu_role newUser
       ∧ Some (u_name u) = nu_name newUser.
Proof.
  intros Hok Hu Hp.
  destruct (handleAdd_unique_usernames newUser users) as [[(_ & H) | (Hne & _)] _];
    [|done].
  destruct H as (username' & password' & name & Hu' & _ & Hp' & _ & Hn & _ & Hfresh & ->).
  assert (username' = username) as -> by congruence.
  assert (password' = password) as -> by congruence.
  exists (mkUser username password (nu_role newUser) name).
  split; [|by rewrite Hn].
  unfold handleLogin.
  destruct (list_find _ (users ++ _)) as [[i u]|] eqn:E.
  - simpl. apply list_find_Some in E as (Hl & [Hau Hap] & _).
    apply lookup_app_Some in Hl as [Hl | [_ Hl]].
    + apply list_elem_of_lookup_2 in Hl. rewrite Forall_forall in Hfresh.
      by destruct (Hfresh u Hl).
    + apply list_lookup_singleton_Some in Hl as [_ <-]. done.
  - exfalso. apply list_find_None in E. apply Forall_app in E as [_ E].
    rewrite Forall_singleton in E. apply E. by split.
Qed.

Lemma login_after_handleAdd_witness :
  ∃ u, handleLogin
         (snd (handleAdd (mkNewUser (Some "meera") (Some "s3cret") (Some "Dr. Meera") USER)
                 (loadUsers None)))
         "meera" "s3cret" = Some u
       ∧ u_name u = "Dr. Meera".
Proof.
  destruct (login_after_handleAdd
              (mkNewUser (Some "meera") (Some "s3cret") (Some "Dr. Meera") USER)
              (loadUsers None) "meera" "s3cret" eq_refl eq_refl eq_refl)
    as (u & Hlogin & _ & _ & _ & Hname).
  exists u. split; [exact Hlogin|]. simpl in Hname. congruence.
Defined.

(** The user table offers no way to remove the administrator or the user
    who is logged in: whichever row is clicked, both are still there. *)
Theorem removeUser_keeps_admin_and_self (currentUser : option User) (u : User) (users : list User) :
  ∀ v, v ∈ users →
       u_username v = "admin" ∨ Some (u_username v) = (u_username <$> currentUser) →
       v ∈ removeUser currentUser u users.
Proof.
  intros v Hin Hv. unfold removeUser.
  case_bool_decide as H1; simpl; [|done].
  case_bool_decide as H2; simpl; [|done].
  unfold handleDeleteUser. apply list_elem_of_filter. split; [|done].
  intros Heq. destruct Hv as [Hv | Hv]; [congruence|]. apply H1. by rewrite <- Heq.
Qed.

Lemma removeUser_keeps_admin_and_self_witness :
  DEFAULT_ADMIN ∈ removeUser (Some (mkUser "meera" "s3cret" USER "Dr. Meera")) DEFAULT_ADMIN
                    [DEFAULT_ADMIN; mkUser "meera" "s3cret" USER "Dr. Meera"].
Proof.
  apply (removeUser_keeps_admin_and_self (Some (mkUser "meera" "s3cret" USER "Dr. Meera"))
           DEFAULT_ADMIN [DEFAULT_ADMIN; mkUser "meera" "s3cret" USER "Dr. Meera"]
           DEFAULT_ADMIN).
  - by constructor.
  - by left.
Defined.

(** ** What every handler keeps *)

Lemma handleBulkAdd_log_prefix uuid now items st :
  changeLogs st `prefix_of` changeLogs (snd (handleBulkAdd uuid now items st)).
Proof.
  unfold handleBulkAdd. destruct (bulkLoop _ _ _ _ _) as [acc|]; [|done]. simpl.
  destruct (_ || _); case_bool_decide; simpl; try done;
    rewrite <- ?app_assoc; by apply prefix_app_r.
Qed.

Lemma handleCompletionSubmit_log_prefix uuid now f st :
  changeLogs st `prefix_of` changeLogs (snd (handleCompletionSubmit uuid now f st)).
Proof.
  unfold handleCompletionSubmit, handleSubjectChange.
  repeat case_match; simpl; try done; by apply prefix_app_r.
Qed.

(** The change log only grows: whatever a handler is given and whether it
    ends well or not, the entries it found are still there afterwards, in
    the same order and unchanged, in front of what it appended. *)
Theorem change_log_append_only uuid now st :
  (∀ type sub comment,
     changeLogs st `prefix_of`
       changeLogs (snd (handleSubjectChange uuid now type sub comment st)))
  ∧ (∀ id status reason,
       changeLogs st `prefix_of` changeLogs (updateStatus uuid now id status reason st))
  ∧ (∀ id reason,
       changeLogs st `prefix_of` changeLogs (snd (recordMissed uuid now id reason st)))
  ∧ (∀ f,
       changeLogs st `prefix_of` changeLogs (snd (completeAppointment uuid now f st)))
  ∧ (∀ app day minutes,
       changeLogs (snd (handleRescheduleSubmit now app day minutes st)) = changeLogs st)
  ∧ (∀ f, changeLogs st `prefix_of` changeLogs (snd (handleSubmit uuid now f st)))
  ∧ (∀ sub day minutes notes,
       changeLogs (snd (handleBookSubmit uuid sub day minutes notes st)) = changeLogs st)
  ∧ (∀ uuids items,
       changeLogs st `prefix_of` changeLogs (snd (handleBulkAdd uuids now items st)))
  ∧ (∀ uuids preview,
       changeLogs st `prefix_of` changeLogs (snd (handleCommit uuids now preview st))).
Proof.
  split_and!.
  - intros. apply handleSubjectChange_log_prefix.
  - intros. apply updateStatus_log_prefix.
  - intros id reason. unfold recordMissed, handleStatusUpdate, saveReason.
    repeat case_match; simpl; try done; apply updateStatus_log_prefix.
  - intros f. unfold completeAppointment. case_match; [|done].
    apply handleCompletionSubmit_log_prefix.
  - intros app day minutes. unfold handleRescheduleSubmit. by repeat case_match.
  - intros f. unfold handleSubmit.
    repeat case_match; try done; apply handleSubjectChange_log_prefix.
  - intros sub day minutes notes. unfold handleBookSubmit. by repeat case_match.
  - intros. apply handleBulkAdd_log_prefix.
  - intros uuids preview. unfold handleCommit. case_bool_decide; [done|].
    apply handleBulkAdd_log_prefix.
Qed.

Lemma updateStatus_ids uuid now id status reason st :
  a_id <$> appointments (updateStatus uuid now id status reason st)
  = a_id <$> appointments st.
Proof.
  rewrite updateStatus_appointments, <- list_fmap_compose. apply list_fmap_ext.
  intros i a _. simpl. by case_decide.
Qed.

Lemma ids_replace (id : string) (x : Appointment) (l : list Appointment) :
  a_id x = id →
  a_id <$> ((λ a, if decide (a_id a = id) then x else a) <$> l) = a_id <$> l.
Proof.
  intros Hx. rewrite <- list_fmap_compose. apply list_fmap_ext.
  intros i a _. simpl. case_decide; congruence.
Qed.

Lemma handleCompletionSubmit_ids uuid now f st :
  a_id <$> appointments st
    `prefix_of` a_id <$> appointments (snd (handleCompletionSubmit uuid now f st)).
Proof.
  unfold handleCompletionSubmit, handleSubjectChange.
  repeat case_match;
    unfold addAppointment, updateAppointment, addChangeLog, setSubjects, setAppointments;
    cbn [snd appointments]; try done;
    rewrite ?fmap_app, (ids_replace _ _ _ eq_refl); try done; by apply prefix_app_r.
Qed.

(** Appointments are never deleted: after any handler the identifiers of
    the stored appointments are still there, in the same order, in front
    of those of the appointments it added. *)
Theorem appointments_never_deleted uuid now st :
  (∀ type sub comment,
     appointments (snd (handleSubjectChange uuid now type sub comment st)) = appointments st)
  ∧ (∀ id status reason,
       a_id <$> appointments (updateStatus uuid now id status reason st)
       = a_id <$> appointments st)
  ∧ (∀ id reason,
       a_id <$> appointments (snd (recordMissed uuid now id reason st))
       = a_id <$> appointments st)
  ∧ (∀ f,
       a_id <$> appointments st
         `prefix_of` a_id <$> appointments (snd (completeAppointment uuid now f st)))
  ∧ (∀ app day minutes,
       a_id <$> appointments (snd (handleRescheduleSubmit now app day minutes st))
       = a_id <$> appointments st)
  ∧ (∀ f, appointments (snd (handleSubmit uuid now f st)) = appointments st)
  ∧ (∀ sub day minutes notes,
       appointments st
         `prefix_of` appointments (snd (handleBookSubmit uuid sub day minutes notes st)))
  ∧ (∀ uuids preview,
       appointments st `prefix_of` appointments (snd (handleCommit uuids now preview st))).
Proof.
  split_and!.
  - intros type sub comment. unfold handleSubjectChange. by repeat case_match.
  - intros. apply updateStatus_ids.
  - intros id reason. unfold recordMissed, handleStatusUpdate, saveReason.
    repeat case_match; simpl; try done; apply updateStatus_ids.
  - intros f. unfold completeAppointment. case_match; [|done].
    apply handleCompletionSubmit_ids.
  - intros app day minutes. unfold handleRescheduleSubmit.
    repeat case_match; try done.
    unfold updateAppointment, setAppointments. cbn [snd appointments].
    by rewrite (ids_replace _ _ _ eq_refl).
  - intros f. unfold handleSubmit, handleSubjectChange. by repeat case_match.
  - intros sub day minutes notes. unfold handleBookSubmit.
    repeat case_match; simpl; try done. by apply prefix_app_r.
  - intros uuids preview. unfold handleCommit. case_bool_decide; [done|].
    unfold handleBulkAdd. destruct (bulkLoop _ _ _ _ _) as [acc|]; [|done]. simpl.
    destruct (_ || _); case_bool_decide; simpl; try done; by apply prefix_app_r.
Qed.

(** ** The directory *)





(** Creating or editing a subject needs a comment: with a comment that is
    empty or blank the alert is raised and nothing is written, so every
    entry these two forms put in the log carries a comment that is not
    blank. *)
Theorem handleSubmit_requires_comment uuid now f st :
  modalMode f = Some Modal_CREATE
  ∨ (modalMode f = Some Modal_EDIT ∧ selectedSubject f ≠ None) →
  (trim (comment f) = "" →
     handleSubmit uuid now f st = (Alert "Please provide a comment.", st))
  ∧ ∀ entry, entry ∈ changeLogs (snd (handleSubmit uuid now f st)) →
             entry ∈ changeLogs st ∨ trim (l_comment entry) ≠ "".
Proof.
  intros Hmode. unfold handleSubmit.
  destruct (truthy (trim (comment f))) eqn:E.
  - apply truthy_true in E. split; [done|]. intros entry.
    destruct Hmode as [-> | [-> Hsel]]; simpl.
    + unfold handleSubjectChange. repeat case_match; simpl; auto.
      rewrite elem_of_app, list_elem_of_singleton. intros [?| ->]; auto.
    + destruct (selectedSubject f); [|done]. simpl.
      unfold handleSubjectChange. repeat case_match; simpl; auto.
      rewrite elem_of_app, list_elem_of_singleton. intros [?| ->]; auto.
  - apply truthy_false in E. split.
    + intros _. destruct Hmode as [-> | [-> Hsel]]; simpl; [done|].
      by destruct (selectedSubject f).
    + intros entry. destruct Hmode as [-> | [-> Hsel]]; simpl; [auto|].
      destruct (selectedSubject f); [auto|done].
Qed.

Lemma handleSubmit_requires_comment_witness :
  handleSubmit "u1" demo_now
    {| modalMode := Some Modal_EDIT; selectedSubject := Some demo_subject;
       formData := mkPartialSubject None (Some "Robert Smith") None None None None None;
       comment := "  "; sm_exitReason := Exit_COMPLETED; sm_exitOtherReason := "";
       sm_exitDate := ""; exitApproximate := false |}
    (demo_state SCHEDULED demo_now)
  = (Alert "Please provide a comment.", demo_state SCHEDULED demo_now).
Proof.
  apply handleSubmit_requires_comment.
  - right. split; [reflexivity|discriminate].
  - reflexivity.
Defined.

(** ** Unknown identifiers *)

Lemma fmap_id_if_absent (id : string) (f : Appointment → Appointment) (l : list Appointment) :
  Forall (λ a, a_id a ≠ id) l →
  (λ a, if decide (a_id a = id) then f a else a) <$> l = l.
Proof.
  induction 1 as [|a l Ha _ IH]; [done|].
  by rewrite fmap_cons, decide_False, IH.
Qed.

(** A status update, a completion write or a reschedule aimed at an
    identifier that no stored appointment carries changes nothing at all:
    no appointment is touched and the log receives no entry. *)
Theorem unknown_appointment_untouched uuid now id st :
  Forall (λ a, a_id a ≠ id) (appointments st) →
  (∀ status reason, updateStatus uuid now id status reason st = st)
  ∧ (∀ status, handleStatusUpdate uuid now id status st = NoSuchAppointment)
  ∧ (∀ updated, a_id updated = id → updateAppointment updated st = st).
Proof.
  intros Habsent.
  assert (findAppointment id (appointments st) = None) as Hnone.
  { unfold findAppointment. apply fmap_None, list_find_None.
    eapply Forall_impl; [exact Habsent|]. done. }
  split_and!.
  - intros status reason. unfold updateStatus, setAppointments. rewrite Hnone.
    rewrite fmap_id_if_absent by done. by destruct st.
  - intros status. unfold handleStatusUpdate. by rewrite Hnone.
  - intros updated <-. unfold updateAppointment, setAppointments.
    rewrite (fmap_id_if_absent _ (λ _, updated)) by done. by destruct st.
Qed.

Lemma unknown_appointment_untouched_witness :
  updateStatus "u1" demo_now "zz" CANCELLED (Some "why") (demo_state SCHEDULED demo_now)
  = demo_state SCHEDULED demo_now.
Proof.
  apply (unknown_appointment_untouched "u1" demo_now "zz" (demo_state SCHEDULED demo_now)).
  repeat constructor. discriminate.
Defined.

(** ** Bulk import: the directory *)

Lemma applyUpdate_ids next u : s_id <$> applyUpdate next u = s_id <$> next.
Proof.
  unfold applyUpdate. destruct (list_find _ next) as [[i s]|] eqn:E; [|done].
  apply list_find_Some in E as (Hl & Hid & _).
  rewrite list_fmap_insert, <- Hid. apply list_insert_id.
  by rewrite list_lookup_fmap, Hl.
Qed.

Lemma applyUpdates_ids next us : s_id <$> foldl applyUpdate next us = s_id <$> next.
Proof.
  revert next. induction us as [|u us IH]; intros next; simpl; [done|].
  by rewrite IH, applyUpdate_ids.
Qed.

Section BulkNewSubjects.
Variables (subs : list Subject) (now : Z).

(** The subjects staged for creation have distinct identifiers, none of
    which is in the directory. *)
Lemma bulkSubject_newSubs_fresh item acc :
  NoDup (s_id <$> newSubs acc) ∧ Forall (λ s, findSubject (s_id s) subs = None) (newSubs acc) →
  NoDup (s_id <$> newSubs (bulkSubject subs now item acc))
  ∧ Forall (λ s, findSubject (s_id s) subs = None) (newSubs (bulkSubject subs now item acc)).
Proof.
  intros [Hnd Hfresh]. unfold bulkSubject.
  destruct (list_find _ subs) as [[i existing]|] eqn:E.
  - by case_decide.
  - destruct (list_find _ (newSubs acc)) as [[??]|] eqn:E'; [done|]. simpl. split.
    + rewrite fmap_app. apply NoDup_app. split_and!; [done| |apply NoDup_singleton].
      intros x Hx Hx'. apply list_elem_of_singleton in Hx'. subst x.
      apply list_elem_of_fmap in Hx as (s & Heq & Hin). simpl in Heq.
      apply list_find_None in E'. rewrite Forall_forall in E'. by apply (E' s Hin).
    + apply Forall_app. split; [done|]. apply Forall_singleton. simpl.
      unfold findSubject. by rewrite E.
Qed.

Lemma bulkLoop_newSubs_fresh uuid acc items acc' :
  bulkLoop subs now uuid acc items = Some acc' →
  NoDup (s_id <$> newSubs acc) ∧ Forall (λ s, findSubject (s_id s) subs = None) (newSubs acc) →
  NoDup (s_id <$> newSubs acc')
  ∧ Forall (λ s, findSubject (s_id s) subs = None) (newSubs acc').
Proof.
  revert acc. induction items as [|item items IH]; intros acc H Hinv; simpl in H.
  - by simplify_eq.
  - destruct (bulkStep subs now uuid acc item) as [acc1|] eqn:E; [|done].
    apply bulkStep_newSubs in E as [E _]. apply (IH acc1 H).
    rewrite E. by apply bulkSubject_newSubs_fresh.
Qed.
End BulkNewSubjects.

(** A bulk import never removes or moves a subject of the directory: the
    identifiers it found are still there in the same order, followed by
    those of the subjects it created, which were not in the directory; so
    identifiers that were distinct stay distinct. *)
Theorem bulk_keeps_directory uuid now items st :
  let st' := snd (handleBulkAdd uuid now items st) in
  ∃ created,
    s_id <$> subjects st' = (s_id <$> subjects st) ++ created
    ∧ NoDup created
    ∧ Forall (λ id, findSubject id (subjects st) = None) created
    ∧ (NoDup (s_id <$> subjects st) → NoDup (s_id <$> subjects st')).
Proof.
  intros st'. subst st'. unfold handleBulkAdd.
  destruct (bulkLoop _ _ _ _ _) as [acc|] eqn:Hacc; simpl.
  2:{ exists []. rewrite app_nil_r. split_and!; [done|constructor|constructor|done]. }
  eapply bulkLoop_newSubs_fresh in Hacc as [Hnd Hfresh];
    [|split; [apply NoDup_nil_2|constructor]].
  assert (∀ st1 : AppState,
            subjects (if bool_decide (0 < length (newApps acc))%nat
                      then addChangeLog (uuid (if bool_decide (0 < length (newSubs acc))%nat
                                                  || bool_decide (0 < length (updatedSubs acc))%nat
                                               then S (length (newApps acc))
                                               else length (newApps acc))) now CREATE
                             (batchSubject "BATCH" "Bulk Appts")
                             ("Bulk scheduled " +:+ pretty (length (newApps acc))
                                +:+ " appointments.")
                             "Bulk Entry Operation"
                             (setAppointments (λ prev, prev ++ newApps acc) st1)
                      else st1) = subjects st1) as ->.
  { intros st1. by case_bool_decide. }
  exists (s_id <$> newSubs acc).
  assert (Forall (λ id, findSubject id (subjects st) = None) (s_id <$> newSubs acc)) as Hfresh'.
  { by apply Forall_fmap. }
  destruct (bool_decide (0 < length (newSubs acc))%nat
            || bool_decide (0 < length (updatedSubs acc))%nat) eqn:Hch; simpl.
  - rewrite applyUpdates_ids, fmap_app. split_and!; [done..|].
    intros Hst. apply NoDup_app. split_and!; [done| |done].
    intros id Hin Hin'. rewrite Forall_forall in Hfresh'.
    specialize (Hfresh' id Hin'). apply findSubject_None in Hfresh'.
    apply list_elem_of_fmap in Hin as (s & -> & Hs).
    rewrite Forall_forall in Hfresh'. by apply (Hfresh' s Hs).
  - apply orb_false_iff in Hch as [Hn _]. apply bool_decide_eq_false in Hn.
    destruct (newSubs acc); [|simpl in Hn; lia]. simpl. rewrite app_nil_r.
    split_and!; [done|constructor|constructor|done].
Qed.

(** ** Bulk import: the log *)

Lemma bulkLoop_newApps_length subs now uuid items acc :
  bulkLoop subs now uuid (mkBulkAcc [] [] []) items = Some acc →
  length (newApps acc) = length items.
Proof.
  intros H. apply bulkLoop_newApps in H as (added & Heq & HF). simpl in Heq.
  rewrite Heq. symmetry. by eapply Forall2_length.
Qed.

(** A bulk import appends at most two entries to the log, however many
    rows it is given: both are stamped [now], filed under BATCH and
    commented "Bulk Entry Operation"; when rows went in, the last one is a
    [CREATE] entry that counts them. *)
Theorem bulk_logs_summaries uuid now items st :
  let result := handleBulkAdd uuid now items st in
  ∃ entries,
    changeLogs (snd result) = changeLogs st ++ entries
    ∧ (length entries ≤ 2)%nat
    ∧ Forall (λ e, l_timestamp e = now ∧ l_subjectId e = "BATCH"
                   ∧ l_comment e = "Bulk Entry Operation") entries
    ∧ (fst result = Done → items ≠ [] →
         ∃ e, last entries = Some e
              ∧ l_changeType e = CREATE
              ∧ l_subjectName e = "Bulk Appts"
              ∧ l_details e = "Bulk scheduled " +:+ pretty (length items) +:+ " appointments.").
Proof.
  intros result. subst result. unfold handleBulkAdd.
  destruct (bulkLoop _ _ _ _ _) as [acc|] eqn:Hacc; simpl.
  2:{ exists []. rewrite app_nil_r. split_and!; [done|simpl; lia|constructor|done]. }
  apply bulkLoop_newApps_length in Hacc. rewrite Hacc.
  destruct (_ || _); case_bool_decide as Hk; simpl.
  - eexists [_; _]. rewrite <- app_assoc. split_and!; [done|simpl; lia| |].
    + repeat constructor.
    + intros _ _. eexists. split; [done|]. done.
  - eexists [_]. split_and!; [done|simpl; lia|repeat constructor|].
    intros _ Hne. destruct items; [done|simpl in Hk; lia].
  - eexists [_]. split_and!; [done|simpl; lia|repeat constructor|].
    intros _ _. eexists. split; [done|]. done.
  - exists []. rewrite app_nil_r. split_and!; [done|simpl; lia|constructor|].
    intros _ Hne. destruct items; [done|simpl in Hk; lia].
Qed.

(** ** Bulk import: rows that bring nothing new *)

Lemma bulkMerge_same existing item :
  (b_name item = "" ∨ b_name item = s_name existing) →
  (b_phone item = "" ∨ Some (b_phone item) = s_phone existing) →
  (b_insertionDate item = None ∨ b_insertionDate item = s_insertionDate existing) →
  bulkMerge existing item = existing.
Proof.
  intros Hn Hp Hi. destruct existing as [id name email phone alt ins notes].
  unfold bulkMerge. simpl in *. f_equal.
  - unfold or_str. destruct (truthy (b_name item)) eqn:E.
    + apply truthy_true in E. by destruct Hn.
    + done.
  - destruct (truthy (b_phone item)) eqn:E.
    + apply truthy_true in E. by destruct Hp.
    + done.
  - destruct Hi as [-> | ->]; [done|]. by destruct ins.
Qed.

(** Rows for subjects of the directory whose name, phone and insertion
    date are empty or equal to what the directory holds leave the
    directory as it is and log no subject entry: the appointments are
    added and the log receives the single entry that counts them. *)
Theorem bulk_rows_without_news uuid now items st :
  Forall
    (λ item,
       b_appointmentDate item ≠ None
       ∧ ∃ existing,
           findSubject (b_subjectId item) (subjects st) = Some existing
           ∧ (b_name item = "" ∨ b_name item = s_name existing)
           ∧ (b_phone item = "" ∨ Some (b_phone item) = s_phone existing)
           ∧ (b_insertionDate item = None
              ∨ b_insertionDate item = s_insertionDate existing))
    items →
  items ≠ [] →
  let result := handleBulkAdd uuid now items st in
  fst result = Done
  ∧ subjects (snd result) = subjects st
  ∧ length (appointments (snd result)) = (length (appointments st) + length items)%nat
  ∧ changeLogs (snd result)
    = changeLogs st ++
        [ mkChangeLogEntry (uuid (length items)) now "BATCH" "Bulk Appts" CREATE
            ("Bulk scheduled " +:+ pretty (length items) +:+ " appointments.")
            "Bulk Entry Operation" ].
Proof.
  intros Hrows Hne result. subst result.
  assert (∀ acc items',
            Forall (λ item, b_appointmentDate item ≠ None
                            ∧ ∃ existing, findSubject (b_subjectId item) (subjects st) = Some existing
                                          ∧ bulkMerge existing item = existing) items' →
            ∃ acc', bulkLoop (subjects st) now uuid acc items' = Some acc'
                    ∧ newSubs acc' = newSubs acc ∧ updatedSubs acc' = updatedSubs acc) as Hloop.
  { intros acc items' H. revert acc.
    induction H as [|item items' [Hd (existing & Hf & Hm)] _ IH]; intros acc; simpl.
    - by exists acc.
    - unfold bulkStep.
      destruct (b_appointmentDate item) as [d|]; [|done].
      assert (bulkSubject (subjects st) now item acc = acc) as ->.
      { unfold bulkSubject. unfold findSubject in Hf.
        destruct (list_find _ (subjects st)) as [[i e]|]; simplify_eq/=.
        rewrite Hm. by rewrite decide_False by (by intros []). }
      destruct (IH (mkBulkAcc (newApps acc ++ [bulkAppointment (uuid (length (newApps acc))) now item d])
                      (newSubs acc) (updatedSubs acc))) as (acc' & -> & ? & ?).
      by exists acc'. }
  destruct (Hloop (mkBulkAcc [] [] []) items) as (acc & Hacc & Hn & Hu).
  { eapply Forall_impl; [exact Hrows|].
    intros item (Hd & existing & Hf & H1 & H2 & H3). split; [done|].
    exists existing. split; [done|]. by apply bulkMerge_same. }
  simpl in Hn, Hu. pose proof (bulkLoop_newApps_length _ _ _ _ _ Hacc) as Hlen.
  unfold handleBulkAdd. rewrite Hacc, Hn, Hu, Hlen. simpl.
  rewrite bool_decide_eq_true_2 by (destruct items; [done|simpl; lia]).
  simpl. rewrite length_app, Hlen. done.
Qed.

Lemma bulk_rows_without_news_witness :
  subjects (snd (handleBulkAdd demo_uuid demo_now
                   [mkBulkItem "S002" "" "8765432109" None (Some (demo_now + msPerDay)) "check"]
                   (demo_state SCHEDULED demo_now)))
  = [demo_subject].
Proof.
  apply (bulk_rows_without_news demo_uuid demo_now
           [mkBulkItem "S002" "" "8765432109" None (Some (demo_now + msPerDay)) "check"]
           (demo_state SCHEDULED demo_now)).
  - repeat constructor; [discriminate|]. exists demo_subject. simpl. auto.
  - discriminate.
Defined.

(** ** Bulk import and the auto-miss pass *)

Lemma bulkAppointmentOf_not_stale now item a :
  bulkAppointmentOf now item a → ¬ (a_status a = SCHEDULED ∧ a_date a < now).
Proof.
  intros (d & _ & _ & Hd & Hs & _) [Hsch Hlt]. subst d.
  rewrite decide_True in Hs by done. congruence.
Qed.

(** The appointments a bulk import adds are already what the auto-miss
    pass would make of them: run at the instant of the import, the pass
    leaves every one of them as it is. *)
Theorem bulk_appointments_settled uuid now items st :
  ∃ added,
    appointments (snd (handleBulkAdd uuid now items st)) = appointments st ++ added
    ∧ autoMiss now added = added.
Proof.
  destruct (bulkLoop (subjects st) now uuid (mkBulkAcc [] [] []) items) as [acc|] eqn:Hacc.
  - destruct (handleBulkAdd_appointments uuid now items st acc Hacc) as [_ ->].
    apply bulkLoop_newApps in Hacc as (added & Heq & HF). simpl in Heq.
    exists added. rewrite Heq. split; [done|].
    unfold autoMiss. rewrite <- (list_fmap_id added) at 2. apply list_fmap_ext.
    intros i a Ha. simpl. apply autoMissOne_fresh.
    destruct (Forall2_lookup_r _ _ _ _ _ HF Ha) as (item & _ & Hitem).
    by eapply bulkAppointmentOf_not_stale.
  - rewrite handleBulkAdd_thrown by done. exists []. by rewrite app_nil_r.
Qed.

(** ** Bulk import: rows that are not valid *)

(** A previewed row has an error message exactly when it is not valid; a
    missing subject identifier is reported before a bad date. *)
Theorem parseRow_error line :
  (isValid (parseRow line) = true ↔ error (parseRow line) = "")
  ∧ (b_subjectId (row (parseRow line)) = "" → error (parseRow line) = "Missing Subject ID")
  ∧ (b_subjectId (row (parseRow line)) ≠ "" →
     b_appointmentDate (row (parseRow line)) = None →
     error (parseRow line) = "Invalid Appt Date (Use DD/MM/YYYY)").
Proof.
  unfold parseRow. simpl.
  set (id := column _ 0). set (d := parseDDMMYYYY _).
  destruct (truthy id) eqn:E; simpl.
  - apply truthy_true in E. destruct d as [t|]; simpl.
    + split_and!; [done|intros; congruence|intros _ [=]].
    + split_and!; [split; discriminate|intros; congruence|done].
  - apply truthy_false in E. split_and!; [split; discriminate|done|intros; congruence].
Qed.

(** Committing a preview in which no row is valid reports that no valid
    row was found and changes nothing.  Previewing a blank paste returns
    before the preview is touched: the rows previewed before stay, whatever
    they are, and the commit that follows acts on them; it reports that no
    valid row was found only when none of those rows is valid. *)
Theorem import_without_valid_rows uuid now st :
  (∀ previewData,
     Forall (λ r, isValid r = false) previewData →
     handleCommit uuid now previewData st = (Alert "No valid rows found in preview.", st))
  ∧ (∀ pastedData previewData,
       trim pastedData = "" →
       handleParse pastedData previewData = previewData
       ∧ handleCommit uuid now (handleParse pastedData previewData) st
         = handleCommit uuid now previewData st
       ∧ (Exists (λ r, isValid r = true) previewData →
          handleCommit uuid now (handleParse pastedData previewData) st
          = handleBulkAdd uuid now
              (row <$> filter (λ d, isValid d = true) previewData) st)).
Proof.
  split.
  - intros previewData Hinv. unfold handleCommit.
    rewrite filter_none; [done|].
    eapply Forall_impl; [exact Hinv|]. intros r Hr. by rewrite Hr.
  - intros pastedData previewData Hblank.
    assert (handleParse pastedData previewData = previewData) as Hkept.
    { unfold handleParse. by rewrite Hblank. }
    rewrite Hkept. split_and!; [done..|].
    intros Hvalid. unfold handleCommit. rewrite bool_decide_eq_false_2; [done|].
    apply Exists_exists in Hvalid as (r & Hin & Hr).
    assert (r ∈ filter (λ d, isValid d = true) previewData) as Hf
      by by apply list_elem_of_filter.
    intros Hlen. apply nil_length_inv in Hlen. rewrite Hlen in Hf.
    by apply elem_of_nil in Hf.
Qed.

(** ** Successive auto-miss passes *)

(** Running the pass at one session start and again at a later one gives
    what a single pass at the later instant gives: an appointment is marked
    as missed, and gets the system note, once. *)
Theorem autoMiss_successive (now1 now2 : Z) (loadedApps : list Appointment) :
  now1 ≤ now2 →
  autoMiss now2 (autoMiss now1 loadedApps) = autoMiss now2 loadedApps.
Proof.
  intros Hle. unfold autoMiss. rewrite <- list_fmap_compose. apply list_fmap_ext.
  intros i app _. simpl.
  destruct (decide (a_status app = SCHEDULED ∧ a_date app < now1)) as [Hs|Hs].
  - rewrite (autoMissOne_stale now1 app Hs).
    rewrite (autoMissOne_stale now2 app) by (destruct Hs; split; [done|lia]).
    apply autoMissOne_fresh. simpl. by intros [? _].
  - by rewrite (autoMissOne_fresh now1 app Hs).
Qed.

Lemma autoMiss_successive_witness :
  autoMiss (demo_now + msPerDay)
    (autoMiss demo_now [demo_appointment SCHEDULED (demo_now - msPerDay)])
  = autoMiss (demo_now + msPerDay) [demo_appointment SCHEDULED (demo_now - msPerDay)].
Proof.
  apply (autoMiss_successive demo_now (demo_now + msPerDay)). vm_compute. discriminate.
Defined.

(** ** Dates written by the modals *)

Lemma minuteOfDay_range t : 0 ≤ minuteOfDay t < 1440.
Proof.
  unfold minuteOfDay, msPerDay, msPerMinute.
  pose proof (Z.mod_pos_bound t 86400000). Z.div_mod_to_equations. lia.
Qed.

Lemma toDay_dateTime day minutes :
  0 ≤ minutes < 1440 → toDay (dateTime day minutes) = day.
Proof.
  intros H. unfold toDay, dateTime, msPerDay, msPerMinute.
  Z.div_mod_to_equations. lia.
Qed.

Lemma minuteOfDay_dateTime day minutes :
  0 ≤ minutes < 1440 → minuteOfDay (dateTime day minutes) = minutes.
Proof.
  intros H. unfold minuteOfDay, dateTime, msPerDay, msPerMinute.
  Z.div_mod_to_equations. lia.
Qed.

(** A completed visit is dated on the day entered in the modal, at the
    hour and minute the appointment had; its identifier and subject are
    kept and its follow-up reason is cleared. *)
Theorem completed_keeps_time_of_day (app : Appointment) (day : Z) (approx : bool) :
  let done := completedAppointment app day approx in
  toDay (a_date done) = day
  ∧ minuteOfDay (a_date done) = minuteOfDay (a_date app)
  ∧ a_id done = a_id app
  ∧ a_subjectId done = a_subjectId app
  ∧ a_followUpReason done = None.
Proof.
  simpl. pose proof (minuteOfDay_range (a_date app)).
  split_and!; [by apply toDay_dateTime|by apply minuteOfDay_dateTime|done..].
Qed.

(** The reschedule modal opens on the next day at 10:00, and submitting it
    as it opened, on the same day or on the next, always goes through. *)
Theorem reschedule_defaults_accepted (now now' : Z) (app : Appointment) (st : AppState) :
  toDay now' ≤ toDay now + 1 →
  let '(rescheduleApp, rescheduleDate, rescheduleTime) := openRescheduleModal now app in
  fst (handleRescheduleSubmit now' rescheduleApp rescheduleDate rescheduleTime st) = Done.
Proof.
  intros Hle. unfold openRescheduleModal, handleRescheduleSubmit.
  assert (isBefore (dateTime (toDay (now + msPerDay)) 600) (startOfDay now') = false) as ->;
    [|done].
  apply isBefore_false. rewrite startOfDay_toDay.
  replace (toDay (now + msPerDay)) with (toDay now + 1).
  - unfold dateTime, msPerDay, msPerMinute in *. lia.
  - unfold toDay. replace (now + msPerDay) with (now + 1 * msPerDay) by lia.
    by rewrite Z.div_add.
Qed.

Lemma reschedule_defaults_accepted_witness :
  fst (handleRescheduleSubmit demo_now
         (Some (demo_appointment MISSED (demo_now - msPerDay)))
         (Some (toDay (demo_now + msPerDay))) (Some 600)
         (demo_state MISSED (demo_now - msPerDay))) = Done.
Proof.
  apply (reschedule_defaults_accepted demo_now demo_now
           (demo_appointment MISSED (demo_now - msPerDay))
           (demo_state MISSED (demo_now - msPerDay))).
  vm_compute. discriminate.
Defined.

(** ** The two exit paths *)

(** Leaving the study from the completion modal is the completion write
    followed by the exit flow of the directory, run on the subject of the
    appointment with the reason, text and date of the modal and its
    approximation flag: same refusal of a blank text, same removal, same
    log entry. *)
Theorem completion_exit_is_directory_exit uuid now f st app day sub :
  completionApp f = Some app →
  completionDate f = Some day →
  postVisitAction f = Some EXIT →
  (a_status app = MISSED → toDay now - 5 ≤ day) →
  findSubject (a_subjectId app) (subjects st) = Some sub →
  handleCompletionSubmit uuid now f st
  = exitSubject uuid now sub (exitReason f) (exitOtherReason f) (exitDate f) (isApproximate f)
      (updateAppointment (completedAppointment app day (isApproximate f)) st).
Proof.
  intros Happ Hday Hact Hwin Hsub.
  unfold handleCompletionSubmit. rewrite Happ, Hday, Hact, Hsub.
  assert (bool_decide (a_status app = MISSED)
          && isBefore (parseISO day) (startOfDay (subDays now 5)) = false) as ->.
  { case_bool_decide as Hm; [|done]. simpl. apply isBefore_false.
    pose proof (parseISO_before_startOfDay day (subDays now 5)) as H.
    rewrite toDay_subDays in H. specialize (Hwin Hm). lia. }
  unfold exitSubject, handleSubmit. simpl.
  by destruct (bool_decide (exitReason f = Exit_OTHER) && negb (truthy (trim (exitOtherReason f)))).
Qed.

Lemma completion_exit_is_directory_exit_witness :
  handleCompletionSubmit "u1" demo_now
    (demo_exit_other (demo_appointment SCHEDULED demo_now) "moved away")
    (demo_state SCHEDULED demo_now)
  = exitSubject "u1" demo_now demo_subject Exit_OTHER "moved away" "2025-11-03" false
      (updateAppointment
         (completedAppointment (demo_appointment SCHEDULED demo_now) (toDay demo_now) false)
         (demo_state SCHEDULED demo_now)).
Proof.
  apply (completion_exit_is_directory_exit "u1" demo_now
           (demo_exit_other (demo_appointment SCHEDULED demo_now) "moved away")
           (demo_state SCHEDULED demo_now)
           (demo_appointment SCHEDULED demo_now) (toDay demo_now) demo_subject);
    try reflexivity.
  discriminate.
Defined.

(** ** Booking and the counters of the directory *)

Lemma length_filter_snoc {A} (P : A → Prop) `{∀ x, Decision (P x)} (l : list A) x :
  length (filter P (l ++ [x])) = (length (filter P l) + if decide (P x) then 1 else 0)%nat.
Proof.
  rewrite filter_app, length_app, filter_cons. by case_decide.
Qed.

(** Booking appends one [Scheduled] appointment for the subject chosen and
    writes nothing else; in the directory the S counter of that subject
    goes up by one, its A and M counters and every counter of the other
    subjects stay as they were.  Without a subject, a date or a time the
    booking does nothing. *)
Theorem booking_counts uuid sub day minutes notes st :
  let st' := snd (handleBookSubmit uuid (Some sub) (Some day) (Some minutes) notes st) in
  appointments st'
  = appointments st ++ [mkAppointment uuid (s_id sub) (dateTime day minutes) SCHEDULED None (Some notes)]
  ∧ subjects st' = subjects st
  ∧ changeLogs st' = changeLogs st
  ∧ subjectStats (appointments st') sub
    = {| stat_A := stat_A (subjectStats (appointments st) sub);
         stat_S := S (stat_S (subjectStats (appointments st) sub));
         stat_M := stat_M (subjectStats (appointments st) sub);
         stat_Total := S (stat_Total (subjectStats (appointments st) sub)) |}
  ∧ (∀ other, s_id other ≠ s_id sub →
       subjectStats (appointments st') other = subjectStats (appointments st) other)
  ∧ (∀ bookingSubject bookDate bookTime,
       bookingSubject = None ∨ bookDate = None ∨ bookTime = None →
       handleBookSubmit uuid bookingSubject bookDate bookTime notes st = (Ignored, st)).
Proof.
  intros st'. subst st'. unfold handleBookSubmit at 1 2 3 4 5.
  unfold addAppointment, setAppointments. cbn [snd appointments subjects changeLogs].
  split_and!; [done..| | |].
  - unfold subjectStats. rewrite filter_app.
    rewrite (filter_cons_True (λ a, a_subjectId a = s_id sub)) by done.
    rewrite filter_nil, !length_filter_snoc, length_app. simpl.
    f_equal; lia.
  - intros other Hne. unfold subjectStats. rewrite !filter_app.
    rewrite (filter_cons_False (λ a, a_subjectId a = s_id other)) by (simpl; congruence).
    by rewrite !app_nil_r.
  - intros bs bd bt H. unfold handleBookSubmit.
    destruct bs, bd, bt; try done; by destruct H as [|[|]].
Qed.

(** The three counters of a directory row never add up to more than the
    number of appointments of the subject. *)
Theorem subject_counters_bounded (appointments : list Appointment) (sub : Subject) :
  (stat_A (subjectStats appointments sub) + stat_S (subjectStats appointments sub)
   + stat_M (subjectStats appointments sub)
   ≤ stat_Total (subjectStats appointments sub))%nat
  ∧ (stat_Total (subjectStats appointments sub) ≤ length appointments)%nat.
Proof.
  unfold subjectStats. simpl. split; [|apply length_filter].
  induction (filter _ appointments) as [|a l IH]; [done|].
  rewrite !filter_cons. destruct (a_status a);
    repeat case_decide; simpl; try lia; congruence.
Qed.

(** ** The communication centre after the auto-miss pass *)

(** After the pass at [today], an appointment dated within the last thirty
    days that was [Scheduled] or [Missed] is in the list of missed
    follow-ups, and no appointment is in both lists. *)
Theorem missed_follow_ups_after_autoMiss (today : Z) (loadedApps : list Appointment) app :
  app ∈ loadedApps →
  a_status app = SCHEDULED ∨ a_status app = MISSED →
  today - 30 * msPerDay ≤ a_date app < today →
  autoMissOne today app ∈ Communications.missed today (autoMiss today loadedApps)
  ∧ ∀ a, a ∈ Communications.upcoming today (autoMiss today loadedApps) →
         a ∉ Communications.missed today (autoMiss today loadedApps).
Proof.
  intros Hin Hst Hd. split.
  - unfold Communications.missed. apply list_elem_of_filter. split.
    + destruct Hst as [Hs | Hm].
      * rewrite autoMissOne_stale by (split; [done|lia]). simpl. split_and!; [lia..|done].
      * rewrite autoMissOne_fresh by (intros [? _]; congruence). split_and!; [lia..|done].
    + unfold autoMiss. apply list_elem_of_fmap. by exists app.
  - intros a Ha Ha'. unfold Communications.upcoming, Communications.missed in *.
    apply list_elem_of_filter in Ha as [(_ & _ & Hs) _].
    apply list_elem_of_filter in Ha' as [(_ & _ & Hs') _]. congruence.
Qed.

Lemma missed_follow_ups_after_autoMiss_witness :
  autoMissOne demo_now (demo_appointment SCHEDULED (demo_now - msPerDay))
  ∈ Communications.missed demo_now
      (autoMiss demo_now [demo_appointment SCHEDULED (demo_now - msPerDay)]).
Proof.
  apply (missed_follow_ups_after_autoMiss demo_now
           [demo_appointment SCHEDULED (demo_now - msPerDay)]
           (demo_appointment SCHEDULED (demo_now - msPerDay))).
  - by constructor.
  - by left.
  - vm_compute. split; [discriminate|reflexivity].
Defined.

(** ** Bulk import: merging into a subject of the directory *)

Section BulkMerge.
Variables (subs : list Subject) (now : Z) (X : string).

Lemma bulkSubject_updated_other item acc :
  b_subjectId item ≠ X →
  filter (λ u, s_id u = X) (updatedSubs (bulkSubject subs now item acc))
  = filter (λ u, s_id u = X) (updatedSubs acc).
Proof.
  intros Hne. unfold bulkSubject.
  destruct (list_find _ subs) as [[i existing]|] eqn:E.
  - case_decide; [|done]. simpl.
    apply list_find_Some in E as (_ & Hid & _).
    rewrite filter_app, filter_cons_False by (simpl; congruence).
    by rewrite app_nil_r.
  - by destruct (list_find _ (newSubs acc)) as [[??]|].
Qed.

Lemma bulkSubject_updated_row item acc i existing :
  list_find (λ s, s_id s = b_subjectId item) subs = Some (i, existing) →
  updatedSubs (bulkSubject subs now item acc)
  = updatedSubs acc ++
      (if decide (bulkMerge existing item ≠ existing) then [bulkMerge existing item] else []).
Proof.
  intros E. unfold bulkSubject. rewrite E.
  case_decide; [done|]. by rewrite app_nil_r.
Qed.

Lemma bulkLoop_updated_other uuid acc items acc' :
  bulkLoop subs now uuid acc items = Some acc' →
  Forall (λ item, b_subjectId item ≠ X) items →
  filter (λ u, s_id u = X) (updatedSubs acc')
  = filter (λ u, s_id u = X) (updatedSubs acc).
Proof.
  revert acc. induction items as [|item items IH]; intros acc H Hne; simpl in H.
  - by simplify_eq.
  - apply Forall_cons in Hne as [Hne Hrest].
    destruct (bulkStep subs now uuid acc item) as [acc1|] eqn:E; [|done].
    apply bulkStep_newSubs in E as [_ E].
    rewrite (IH acc1 H Hrest), E. by apply bulkSubject_updated_other.
Qed.
End BulkMerge.

(** The commit pass puts the update staged for [X], if there is one, at the
    place of the first subject that carries [X]. *)
Lemma applyUpdates_at (X : string) (us : list Subject) :
  ∀ next i e staged,
    list_find (λ s, s_id s = X) next = Some (i, e) →
    filter (λ u, s_id u = X) us = staged →
    staged = [] ∨ (∃ m, staged = [m]) →
    foldl applyUpdate next us !! i = Some (default e (head staged)).
Proof.
  induction us as [|u us IH]; intros next i e staged Hfind Hf Hshape; simpl.
  - simpl in Hf. subst staged. by apply list_find_Some in Hfind as (? & _).
  - pose proof Hfind as (Hi & He & Hmin)%list_find_Some.
    rewrite filter_cons in Hf. unfold applyUpdate at 2.
    destruct (decide (s_id u = X)) as [Hu|Hu].
    + destruct Hshape as [-> | [m ->]]; [done|].
      injection Hf as <- H0.
      destruct (list_find (λ s, s_id s = s_id u) next) as [[j s]|] eqn:E.
      * apply list_find_Some in E as (Hj & Hs & Hminj).
        assert (j = i) as ->.
        { destruct (Z.lt_trichotomy (Z.of_nat j) (Z.of_nat i)) as [Hlt|[Heq|Hgt]]; [|lia|].
          - exfalso. eapply (Hmin j s Hj); [lia|]. simpl. congruence.
          - exfalso. eapply (Hminj i e Hi); [lia|]. simpl. congruence. }
        rewrite (IH (<[i:=u]> next) i u []); [done| |done|by left].
        apply list_find_Some. split_and!; [|done|].
        -- apply list_lookup_insert_eq. by eapply lookup_lt_Some.
        -- intros k y Hk Hlt. rewrite list_lookup_insert_ne in Hk by lia. by eapply Hmin.
      * apply list_find_None in E. rewrite Forall_forall in E.
        destruct (E e); [by eapply list_elem_of_lookup_2|simpl; congruence].
    + destruct (list_find (λ s, s_id s = s_id u) next) as [[j s]|] eqn:E.
      * apply list_find_Some in E as (Hj & Hs & _).
        assert (j ≠ i) as Hji.
        { intros ->. assert (s = e) as -> by congruence. simpl in *. congruence. }
        apply (IH (<[j:=u]> next) i e staged); [|done..].
        apply list_find_Some. split_and!; [by rewrite list_lookup_insert_ne|done|].
        intros k y Hk Hlt. destruct (decide (k = j)) as [->|Hkj].
        -- rewrite list_lookup_insert_eq in Hk by (by eapply lookup_lt_Some). by simplify_eq.
        -- rewrite list_lookup_insert_ne in Hk by done. by eapply Hmin.
      * by apply (IH next i e staged).
Qed.

(** When one row of a batch names a subject of the directory, and no other
    row does, the subject keeps its place and its other fields, and takes
    from the row the name, the phone and the insertion date that are not
    empty. *)
Theorem bulk_merges_into_existing uuid now st l1 item l2 i existing :
  let items := l1 ++ item :: l2 in
  list_find (λ s, s_id s = b_subjectId item) (subjects st) = Some (i, existing) →
  Forall (λ r, b_subjectId r ≠ b_subjectId item) (l1 ++ l2) →
  Forall (λ r, b_appointmentDate r ≠ None) items →
  subjects (snd (handleBulkAdd uuid now items st)) !! i
  = Some {| s_id := s_id existing;
            s_name := if decide (b_name item = "") then s_name existing else b_name item;
            s_email := s_email existing;
            s_phone := if decide (b_phone item = "") then s_phone existing
                       else Some (b_phone item);
            s_altPhone := s_altPhone existing;
            s_insertionDate := match b_insertionDate item with
                               | Some t => Some t
                               | None => s_insertionDate existing
                               end;
            s_notes := s_notes existing |}.
Proof.
  intros items Hfind Hothers Hdates.
  set (X := b_subjectId item) in *.
  apply Forall_app in Hothers as [Hl1 Hl2].
  assert (bulkMerge existing item
          = {| s_id := s_id existing;
               s_name := if decide (b_name item = "") then s_name existing else b_name item;
               s_email := s_email existing;
               s_phone := if decide (b_phone item = "") then s_phone existing
                          else Some (b_phone item);
               s_altPhone := s_altPhone existing;
               s_insertionDate := match b_insertionDate item with
                                  | Some t => Some t
                                  | None => s_insertionDate existing
                                  end;
               s_notes := s_notes existing |}) as <-.
  { unfold bulkMerge, or_str. simpl. f_equal.
    - case_decide as Hn; [by rewrite Hn|]. by apply truthy_true in Hn as ->.
    - case_decide as Hp; [by rewrite Hp|]. by apply truthy_true in Hp as ->. }
  destruct (bulkLoop_total (subjects st) now uuid (mkBulkAcc [] [] []) items Hdates)
    as [acc Hacc].
  assert (filter (λ u, s_id u = X) (updatedSubs acc)
          = if decide (bulkMerge existing item = existing)
            then [] else [bulkMerge existing item]) as Hstaged.
  { pose proof Hacc as Hacc'. subst items. rewrite bulkLoop_app in Hacc'.
    destruct (bulkLoop _ _ _ _ l1) as [acc1|] eqn:E1; [|done]. simpl in Hacc'.
    eapply bulkLoop_updated_other in E1; [|exact Hl1]. simpl in E1.
    destruct (bulkStep (subjects st) now uuid acc1 item) as [acc2|] eqn:E2; [|done].
    apply bulkStep_newSubs in E2 as [_ E2].
    eapply bulkLoop_updated_other in Hacc'; [|exact Hl2].
    rewrite Hacc', E2, (bulkSubject_updated_row _ _ _ _ _ _ Hfind), filter_app, E1. simpl.
    apply list_find_Some in Hfind as (_ & Hid & _).
    destruct (decide (bulkMerge existing item = existing)) as [Hm|Hm].
    - by rewrite decide_False by (by intros []).
    - rewrite decide_True by done. by rewrite filter_cons_True. }
  unfold handleBulkAdd. rewrite Hacc. cbn [snd].
  assert (∀ st1 : AppState,
            subjects (if bool_decide (0 < length (newApps acc))%nat
                      then addChangeLog (uuid (if bool_decide (0 < length (newSubs acc))%nat
                                                  || bool_decide (0 < length (updatedSubs acc))%nat
                                               then S (length (newApps acc))
                                               else length (newApps acc))) now CREATE
                             (batchSubject "BATCH" "Bulk Appts")
                             ("Bulk scheduled " +:+ pretty (length (newApps acc))
                                +:+ " appointments.")
                             "Bulk Entry Operation"
                             (setAppointments (λ prev, prev ++ newApps acc) st1)
                      else st1) = subjects st1) as ->.
  { intros st1. by case_bool_decide. }
  destruct (bool_decide (0 < length (newSubs acc))%nat
            || bool_decide (0 < length (updatedSubs acc))%nat) eqn:Hch.
  - cbn [subjects addChangeLog setSubjects].
    erewrite (applyUpdates_at X); [|by apply list_find_app_l|exact Hstaged|].
    + case_decide as Hm; [by rewrite Hm|done].
    + case_decide; [by left|right; eauto].
  - apply orb_false_iff in Hch as [_ Hu]. apply bool_decide_eq_false in Hu.
    destruct (updatedSubs acc); [|simpl in Hu; lia]. simpl in Hstaged.
    case_decide as Hm; [|done]. rewrite Hm.
    by apply list_find_Some in Hfind as (? & _).
Qed.

(** Subject S002 gets a new phone from a row that leaves the name empty. *)
Lemma bulk_merges_into_existing_witness :
  subjects (snd (handleBulkAdd demo_uuid demo_now
                   [mkBulkItem "S002" "" "1234567890" None (Some (demo_now + msPerDay)) ""]
                   (demo_state SCHEDULED demo_now))) !! 0%nat
  = Some {| s_id := "S002"; s_name := "Bob Smith (SJH)"; s_email := None;
            s_phone := Some "1234567890"; s_altPhone := None;
            s_insertionDate := Some 1761991200000; s_notes := None |}.
Proof.
  apply (bulk_merges_into_existing demo_uuid demo_now (demo_state SCHEDULED demo_now)
           [] (mkBulkItem "S002" "" "1234567890" None (Some (demo_now + msPerDay)) "") []
           0%nat demo_subject).
  - reflexivity.
  - constructor.
  - repeat constructor. discriminate.
Defined.

(** ** The date parser of the bulk entry *)

Lemma civil_from_days_range z y m d :
  civil_from_days z = (y, m, d) → 1 ≤ m ≤ 12 ∧ 1 ≤ d ≤ 31.
Proof.
  unfold civil_from_days. intros H.
  set (z1 := z + 719468) in *.
  set (era := z1 / 146097) in *.
  set (doe := z1 - era * 146097) in *.
  assert (0 ≤ doe ≤ 146096) as Hdoe.
  { subst doe era. pose proof (Z.div_mod z1 146097).
    pose proof (Z.mod_pos_bound z1 146097). lia. }
  clearbody doe era. clear z1.
  set (yoe := (doe - doe / 1460 + doe / 36524 - doe / 146096) / 365) in *.
  set (doy := doe - (365 * yoe + yoe / 4 - yoe / 100)) in *.
  assert (0 ≤ yoe ≤ 399 ∧ 0 ≤ doy ≤ 365) as [Hyoe Hdoy].
  { subst doy yoe. Z.div_mod_to_equations. lia. }
  clearbody doy. clear Hyoe.
  set (mp := (5 * doy + 2) / 153) in *.
  set (dd := doy - (153 * mp + 2) / 5 + 1) in *.
  assert (0 ≤ mp ≤ 11 ∧ 1 ≤ dd ≤ 31) as [Hmp Hdd].
  { subst dd mp. Z.div_mod_to_equations. lia. }
  clearbody dd mp.
  case_bool_decide; case_bool_decide; simplify_eq; lia.
Qed.

(** [parseDDMMYYYY] returns a date only for a text of three numbers,
    separated by slashes or dashes, that name a day of the calendar: the
    date returned is midnight of the day whose year, month and day of the
    month are those numbers, a year below 100 counting from 2000.  A month
    outside 1 to 12 or a day outside 1 to 31 is never accepted. *)
Theorem parseDDMMYYYY_names_a_day (dateStr : string) (t : Z) :
  parseDDMMYYYY dateStr = Some t →
  ∃ p0 p1 p2 day month year,
    split isDateSeparator (trim dateStr) = [p0; p1; p2]
    ∧ parseInt p0 = Some day ∧ parseInt p1 = Some month ∧ parseInt p2 = Some year
    ∧ civil_from_days (toDay t)
      = (if decide (year < 100) then 2000 + year else year, month, day)
    ∧ t = parseISO (toDay t)
    ∧ 1 ≤ month ≤ 12 ∧ 1 ≤ day ≤ 31.
Proof.
  unfold parseDDMMYYYY. intros H.
  destruct (truthy dateStr); simpl in H; [|done].
  destruct (split isDateSeparator (trim dateStr)) as [|p0 [|p1 [|p2 [|??]]]]; try done.
  destruct (parseInt p0) as [day|] eqn:H0; [|done].
  destruct (parseInt p1) as [m|] eqn:H1; [|done].
  destruct (parseInt p2) as [year|] eqn:H2; [|done].
  destruct (newDate _ _ _) as [t'|] eqn:Hnew; [|done].
  case_decide as Hciv; [|done]. simplify_eq.
  replace (m - 1 + 1) with m in Hciv by lia.
  exists p0, p1, p2, day, m, year.
  assert (t = parseISO (toDay t)) as Hmid.
  { unfold newDate in Hnew. case_match; [|done]. simplify_eq.
    unfold parseISO, toDay. by rewrite Z.div_mul. }
  pose proof (civil_from_days_range _ _ _ _ Hciv) as [Hm Hd].
  split_and!; try done; try lia.
  rewrite Hciv. by case_bool_decide; case_decide.
Qed.

Lemma parseDDMMYYYY_names_a_day_witness :
  ∃ p0 p1 p2 day month year,
    split isDateSeparator (trim "20/05/26") = [p0; p1; p2]
    ∧ parseInt p0 = Some day ∧ parseInt p1 = Some month ∧ parseInt p2 = Some year
    ∧ civil_from_days (toDay 1779235200000)
      = (if decide (year < 100) then 2000 + year else year, month, day)
    ∧ 1779235200000 = parseISO (toDay 1779235200000)
    ∧ 1 ≤ month ≤ 12 ∧ 1 ≤ day ≤ 31.
Proof.
  apply (parseDDMMYYYY_names_a_day "20/05/26" 1779235200000). vm_compute. reflexivity.
Defined.

Example parseDDMMYYYY_samples :
  parseDDMMYYYY "20/05/2026" = Some 1779235200000
  ∧ parseDDMMYYYY "20-05-26" = Some 1779235200000
  ∧ parseDDMMYYYY "29/02/2024" = Some 1709164800000
  ∧ parseDDMMYYYY "29/02/2023" = None
  ∧ parseDDMMYYYY "31/04/2026" = None
  ∧ parseDDMMYYYY "05/13/2026" = None
  ∧ parseDDMMYYYY "2026" = None
  ∧ parseDDMMYYYY "" = None.
Proof. vm_compute. split_and!; reflexivity. Qed.

(** ** The completion modal as it opens *)

(** The completion modal opens on today's date with no follow-up chosen:
    submitted as it opened, for any appointment, it asks for the follow-up
    and writes nothing. *)
Theorem completion_defaults_ask_for_follow_up uuid now app nextApptTime nextApptNotes st :
  completeAppointment uuid now (initCompletionFlow now app nextApptTime nextApptNotes) st
  = (Alert "Please either schedule the next appointment or exit the study.", st).
Proof.
  unfold completeAppointment.
  assert (completionFormValid now (initCompletionFlow now app nextApptTime nextApptNotes)
          = true) as ->.
  { unfold completionFormValid. simpl. rewrite toDay_subDays.
    rewrite bool_decide_eq_true_2 by lia. simpl.
    case_decide; [|done]. by rewrite bool_decide_eq_true_2 by lia. }
  rewrite (handleCompletionSubmit_recent uuid now _ st app (toDay now)); [done..|lia].
Qed.

(** ** Examples of the properties above *)

Lemma loadUsers_has_admin_witness :
  loadUsers (Some [mkUser "meera" "s3cret" USER "Dr. Meera"])
  = [mkUser "meera" "s3cret" USER "Dr. Meera"; DEFAULT_ADMIN]
  ∧ loadUsers (Some [DEFAULT_ADMIN]) = [DEFAULT_ADMIN].
Proof.
  split.
  - destruct (loadUsers_has_admin (Some [mkUser "meera" "s3cret" USER "Dr. Meera"]))
      as (_ & H & _).
    destruct (H _ eq_refl) as [Heq | [_ Heq]]; [|exact Heq].
    exfalso. revert Heq. vm_compute. discriminate.
  - destruct (loadUsers_has_admin (Some [DEFAULT_ADMIN])) as (_ & H & _).
    destruct (H _ eq_refl) as [Heq | [Hno _]]; [exact Heq|].
    exfalso. apply Forall_cons in Hno as [Hno _]. by apply Hno.
Defined.

Lemma handleAdd_unique_usernames_witness :
  NoDup (u_username <$> snd (handleAdd (mkNewUser (Some "admin") (Some "x") (Some "Eve") ADMIN)
                               (loadUsers None))).
Proof.
  apply (handleAdd_unique_usernames (mkNewUser (Some "admin") (Some "x") (Some "Eve") ADMIN)
           (loadUsers None)).
  vm_compute. apply NoDup_singleton.
Defined.

Lemma bulk_keeps_directory_witness :
  NoDup (s_id <$> subjects (snd (handleBulkAdd demo_uuid demo_now
                                   [demo_row_first; demo_row_second]
                                   (demo_state SCHEDULED demo_now)))).
Proof.
  destruct (bulk_keeps_directory demo_uuid demo_now [demo_row_first; demo_row_second]
              (demo_state SCHEDULED demo_now)) as (created & _ & _ & _ & H).
  apply H. vm_compute. apply NoDup_singleton.
Defined.

Lemma bulk_logs_summaries_witness :
  ∃ entries,
    changeLogs (snd (handleBulkAdd demo_uuid demo_now [demo_row_first; demo_row_second]
                       (demo_state SCHEDULED demo_now))) = entries
    ∧ (length entries ≤ 2)%nat
    ∧ ∃ e, last entries = Some e ∧ l_details e = "Bulk scheduled 2 appointments.".
Proof.
  destruct (bulk_logs_summaries demo_uuid demo_now [demo_row_first; demo_row_second]
              (demo_state SCHEDULED demo_now)) as (entries & Heq & Hlen & _ & Hlast).
  exists entries. split_and!; [exact Heq|exact Hlen|].
  destruct Hlast as (e & He & _ & _ & Hd); [reflexivity|discriminate|].
  exists e. split; [exact He|exact Hd].
Defined.

Lemma parseRow_error_witness :
  error (parseRow ("M003" +:+ TAB +:+ "Charlie" +:+ TAB +:+ TAB +:+ TAB +:+ "31/02/2026"))
  = "Invalid Appt Date (Use DD/MM/YYYY)".
Proof.
  apply (parseRow_error ("M003" +:+ TAB +:+ "Charlie" +:+ TAB +:+ TAB +:+ TAB +:+ "31/02/2026")).
  - vm_compute. discriminate.
  - vm_compute. reflexivity.
Defined.

(** A row without a date commits nothing.  After the three rows of
    [demo_paste] have been previewed, a paste of blanks leaves them in the
    preview, and the commit imports the two valid ones. *)
Lemma import_without_valid_rows_witness :
  let st := demo_state SCHEDULED demo_now in
  let previewData := handleParse demo_paste [] in
  handleCommit demo_uuid demo_now (handleParse "M003" []) st
  = (Alert "No valid rows found in preview.", st)
  ∧ handleParse ("  " +:+ NBSP +:+ LF) previewData = previewData
  ∧ fst (handleCommit demo_uuid demo_now (handleParse ("  " +:+ NBSP +:+ LF) previewData) st)
    = Done
  ∧ a_subjectId <$> appointments
      (snd (handleCommit demo_uuid demo_now (handleParse ("  " +:+ NBSP +:+ LF) previewData) st))
    = ["S002"; "A001"; "S002"].
Proof.
  intros st previewData.
  destruct (import_without_valid_rows demo_uuid demo_now st) as [Hnone Hblank].
  split; [apply Hnone; vm_compute; repeat constructor|].
  destruct (Hblank ("  " +:+ NBSP +:+ LF) previewData) as (Hkept & _ & Himport);
    [vm_compute; reflexivity|].
  split; [exact Hkept|].
  rewrite Himport by (vm_compute; apply Exists_cons_hd; reflexivity).
  vm_compute. split; reflexivity.
Defined.

Lemma booking_counts_witness :
  subjectStats
    (appointments (snd (handleBookSubmit "u9" (Some demo_subject) (Some (toDay demo_now + 7))
                          (Some 540) "control" (demo_state MISSED (demo_now - msPerDay)))))
    demo_subject
  = {| stat_A := 0; stat_S := 1; stat_M := 1; stat_Total := 2 |}.
Proof.
  destruct (booking_counts "u9" demo_subject (toDay demo_now + 7) 540 "control"
              (demo_state MISSED (demo_now - msPerDay))) as (_ & _ & _ & H & _).
  rewrite H. reflexivity.
Defined.
